(** * TradeOgre price oracle ([src/price_oracles/tradeogre.cpp])

    A shallow embedding of [TradeOgre::getNewPrice] and of the library
    calls it makes (libc strings, [std::string], [std::chrono], simdjson's
    DOM API and MPFR), followed by the properties of the pipeline.

    Conventions.  Character data ([const char *], [std::string],
    [vector<uint8_t>]) is [list ascii].  Machine integers are [Z] with the
    wrap-around written where the source computes in a fixed width.
    Exceptions and the reads of the system clock are threaded through a
    small monad [M]. *)

From Stdlib Require Import ZArith List Ascii String Bool Lia.
From Stdlib Require Import QArith Qpower Lqa.
Import ListNotations.

Local Open Scope Z_scope.

(** ** Machine integers *)

Definition INT64_MIN : Z := -9223372036854775808.
Definition INT64_MAX : Z := 9223372036854775807.
Definition INT_MAX : Z := 2147483647.

(** [unsigned int] and [size_t] arithmetic is modular. *)
Definition wrap_uint32 (z : Z) : Z := z mod 2 ^ 32.
Definition wrap_size_t (z : Z) : Z := z mod 2 ^ 64.

(** Two's complement reduction to [int64_t], the representation of
    [system_clock::duration]. *)
Definition wrap_int64 (z : Z) : Z := (z + 2 ^ 63) mod 2 ^ 64 - 2 ^ 63.

(** ** Characters and C strings *)

(** A literal of the source, as the characters it holds. *)
Definition str (s : string) : list ascii := list_ascii_of_string s.

Definition NUL : ascii := Ascii.zero.

(** The characters a [const char *] denotes: those before the first NUL. *)
Fixpoint c_str (s : list ascii) : list ascii :=
  match s with
  | [] => []
  | c :: t => if Ascii.eqb c NUL then [] else c :: c_str t
  end.

(** [isdigit] in the C locale. *)
Definition isdigit (c : ascii) : bool :=
  let n := Z.of_N (N_of_ascii c) in (48 <=? n) && (n <=? 57).

Definition digit_value (c : ascii) : Z := Z.of_N (N_of_ascii c) - 48.

Definition digit_char (d : Z) : ascii := ascii_of_N (Z.to_N (48 + d)).

Definition strlen (s : list ascii) : Z := Z.of_nat (List.length s).

(** [strchr(s, c)] as the offset of the first [c] from [s], or [None] for
    the null pointer. *)
Fixpoint strchr (s : list ascii) (c : ascii) : option Z :=
  match s with
  | [] => None
  | x :: t =>
      if Ascii.eqb x c then Some 0
      else match strchr t c with
           | Some i => Some (i + 1)
           | None => None
           end
  end.

(** ** [std::string] *)

(** [std::to_string] of a non-negative integer. *)
Fixpoint to_string_loop (fuel : nat) (n : Z) (acc : list ascii) : list ascii :=
  match fuel with
  | O => acc
  | S fuel' =>
      let acc' := digit_char (n mod 10) :: acc in
      if n / 10 =? 0 then acc' else to_string_loop fuel' (n / 10) acc'
  end.

Definition to_string (n : Z) : list ascii :=
  to_string_loop (S (Z.to_nat (Z.log2 n))) n [].

(** [back()]; the call is undefined on an empty string, which is [None]. *)
Definition back (s : list ascii) : option ascii :=
  match rev s with
  | [] => None
  | c :: _ => Some c
  end.

Definition back_is (s : list ascii) (c : ascii) : bool :=
  match back s with
  | Some x => Ascii.eqb x c
  | None => false
  end.

Definition pop_back (s : list ascii) : list ascii := removelast s.

Definition npos : Z := 2 ^ 64 - 1.

(** [find_last_not_of(c)]: the index of the last character different from
    [c], or [npos]. *)
Fixpoint find_last_not_of_from (s : list ascii) (c : ascii) : option Z :=
  match s with
  | [] => None
  | x :: t =>
      match find_last_not_of_from t c with
      | Some i => Some (i + 1)
      | None => if Ascii.eqb x c then None else Some 0
      end
  end.

Definition find_last_not_of (s : list ascii) (c : ascii) : Z :=
  match find_last_not_of_from s c with
  | Some i => i
  | None => npos
  end.

(** [substr(0, n)]. *)
Definition substr0 (s : list ascii) (n : Z) : list ascii :=
  firstn (Z.to_nat n) s.

(** The canonicalisation block at the end of [getNewPrice]
    (the statements guarded by [result != "0"]). *)
Definition canonicalize (result : list ascii) : list ascii :=
  if list_eq_dec ascii_dec result (str "0") then result
  else
    let result :=
      if back_is result "0"
      then substr0 result (wrap_size_t (find_last_not_of result "0" + 1))
      else result in
    if back_is result "." then pop_back result else result.

(** ** [std::chrono]

    [system_clock::duration] counts nanoseconds in an [int64_t]
    (libstdc++).  A [time_point<system_clock>] is the number of ticks since
    the epoch. *)

Definition ticks_per_second : Z := 1000000000.

Definition time_point_min : Z := INT64_MIN.
Definition time_point_max : Z := INT64_MAX.

(** [duration_cast<seconds>(d).count()] truncates towards zero. *)
Definition duration_cast_seconds (ticks : Z) : Z := Z.quot ticks ticks_per_second.

(** [time_point<system_clock>(seconds(s))]: the implicit conversion of
    seconds to ticks multiplies in the 64-bit representation. *)
Definition time_point_of_seconds (s : Z) : Z := wrap_int64 (s * ticks_per_second).

(** ** MPFR

    A number is [m * 2 ^ e] with a significand [m] of [prec] bits whose top
    bit is set.  Exponents are unbounded here: the default exponent range
    of MPFR ([2 ^ 30 - 1] either way) is left only by a decimal string of
    more than [3 * 10 ^ 8] characters, and overflow and underflow are not
    modelled.  Signed values are not part of the model: [getNewPrice] hands
    only strings of digits and points to MPFR. *)

Inductive mpfr_value : Type :=
| mpfr_nan
| mpfr_zero
| mpfr_reg (m e : Z).

Record mpfr_t : Type := { mpfr_prec : Z; mpfr_val : mpfr_value }.

Definition PRECISION : Z := 256.
Definition DECIMAL_NUMBER_BASE : Z := 10.

(** [mpfr_init2] sets the precision and the value NaN. *)
Definition mpfr_init2 (prec : Z) : mpfr_t :=
  {| mpfr_prec := prec; mpfr_val := mpfr_nan |}.

(** The integer nearest to [n / d], a tie going to the even one
    ([MPFR_RNDN]); for [0 <= n] and [0 < d]. *)
Definition rndn_div (n d : Z) : Z :=
  let q := n / d in
  match 2 * (n mod d) ?= d with
  | Lt => q
  | Gt => q + 1
  | Eq => if Z.even q then q else q + 1
  end.

(** [floor (log2 (n / d))], for [0 < n] and [0 < d]. *)
Definition floor_log2_ratio (n d : Z) : Z :=
  let k := Z.log2 n - Z.log2 d in
  if d * 2 ^ Z.max 0 k <=? n * 2 ^ Z.max 0 (- k) then k else k - 1.

(** [n / d] rounded to nearest at [prec] bits. *)
Definition mpfr_round (prec n d : Z) : mpfr_value :=
  let e := floor_log2_ratio n d - prec + 1 in
  let m := rndn_div (n * 2 ^ Z.max 0 (- e)) (d * 2 ^ Z.max 0 e) in
  if m =? 2 ^ prec then mpfr_reg (2 ^ (prec - 1)) (e + 1) else mpfr_reg m e.

(** The significand scan of [mpfr_strtofr] in base 10: digits with at most
    one point; it stops at a second point or at any other character and
    yields the digits read as an integer, their number, the number of them
    after the point, and the unread rest. *)
Fixpoint scan_mantissa (s : list ascii) (point : bool) (mant ndigits frac : Z)
  : Z * Z * Z * list ascii :=
  match s with
  | [] => (mant, ndigits, frac, [])
  | c :: t =>
      if Ascii.eqb c "." then
        if point then (mant, ndigits, frac, s)
        else scan_mantissa t true mant ndigits frac
      else if isdigit c then
        scan_mantissa t point (10 * mant + digit_value c) (ndigits + 1)
          (if point then frac + 1 else frac)
      else (mant, ndigits, frac, s)
  end.

(** [mpfr_set_str(rop, s, 10, MPFR_RNDN)] on an unsigned string: the return
    value ([0], or [-1] unless the whole string is one number) and the new
    value of [rop].  Sign, exponent, NaN and infinity syntax are outside
    this model; a character that starts none of the modelled syntax ends
    the number there, which gives [-1]. *)
Definition mpfr_set_str (rop : mpfr_t) (s : list ascii) : Z * mpfr_t :=
  match s with
  | [] => (-1, rop)
  | _ =>
      let '(mant, ndigits, frac, rest) := scan_mantissa s false 0 0 0 in
      if ndigits =? 0 then
        (-1, {| mpfr_prec := mpfr_prec rop; mpfr_val := mpfr_zero |})
      else
        let v := if mant =? 0 then mpfr_zero
                 else mpfr_round (mpfr_prec rop) mant (10 ^ frac) in
        (match rest with [] => 0 | _ => -1 end,
         {| mpfr_prec := mpfr_prec rop; mpfr_val := v |})
  end.

Definition mpfr_sgn (x : mpfr_t) : Z :=
  match mpfr_val x with
  | mpfr_reg m _ => Z.sgn m
  | _ => 0
  end.

(** [mpfr_mul(rop, a, b, MPFR_RNDN)]: the exact product rounded to the
    precision of [rop]. *)
Definition mpfr_mul (rop a b : mpfr_t) : mpfr_t :=
  {| mpfr_prec := mpfr_prec rop;
     mpfr_val :=
       match mpfr_val a, mpfr_val b with
       | mpfr_reg m1 e1, mpfr_reg m2 e2 =>
           match mpfr_round (mpfr_prec rop) (m1 * m2) 1 with
           | mpfr_reg m e => mpfr_reg m (e + e1 + e2)
           | v => v
           end
       | mpfr_zero, mpfr_reg _ _ | mpfr_reg _ _, mpfr_zero
       | mpfr_zero, mpfr_zero => mpfr_zero
       | _, _ => mpfr_nan
       end |}.

(** The [k] low decimal digits of [n], most significant first. *)
Fixpoint low_digits (k : nat) (n : Z) : list ascii :=
  match k with
  | O => []
  | S k' => low_digits k' (n / 10) ++ [digit_char (n mod 10)]
  end.

(** The value times [10 ^ p], rounded to the nearest integer, ties to
    even: the digits that the conversion [%.pR*F] under [MPFR_RNDN] prints. *)
Definition scaled_rndn (p : Z) (v : mpfr_value) : Z :=
  match v with
  | mpfr_reg m e => rndn_div (m * 10 ^ p * 2 ^ Z.max 0 e) (2 ^ Z.max 0 (- e))
  | _ => 0
  end.

(** The text of the conversion [%.pR*F] with [MPFR_RNDN]: the integer part,
    then, when [p] is not zero, a point and exactly [p] digits. *)
Definition format_F (p : Z) (x : mpfr_t) : list ascii :=
  match mpfr_val x with
  | mpfr_nan => str "NAN"
  | v =>
      let n := scaled_rndn p v in
      to_string (n / 10 ^ p)
        ++ (if p =? 0 then [] else "."%char :: low_digits (Z.to_nat p) n)
  end.

(** The value of a run of decimal digits; [None] when the string is empty
    or holds another character. *)
Fixpoint read_digits (s : list ascii) (acc : Z) : option Z :=
  match s with
  | [] => Some acc
  | c :: t => if isdigit c then read_digits t (10 * acc + digit_value c) else None
  end.

(** The precision of a format string of the shape ["%.<digits>R*F"], the
    only shape [getNewPrice] builds. *)
Definition format_precision (fmt : list ascii) : option Z :=
  match fmt with
  | "%"%char :: "."%char :: t =>
      let n := (List.length t - 3)%nat in
      if list_eq_dec ascii_dec (skipn n t) (str "R*F") then
        match firstn n t with
        | [] => None
        | ds => read_digits ds 0
        end
      else None
  | _ => None
  end.

(** [mpfr_sprintf(buf, fmt, MPFR_RNDN, x)]: the number of characters
    written and the characters; a negative number when the format is not
    understood or the text is longer than [INT_MAX]. *)
Definition mpfr_sprintf (fmt : list ascii) (x : mpfr_t) : Z * list ascii :=
  match format_precision fmt with
  | None => (-1, [])
  | Some p =>
      let text := format_F p x in
      if strlen text <=? INT_MAX then (strlen text, text) else (-1, [])
  end.

(** [mpfr_snprintf(nullptr, 0, fmt, MPFR_RNDN, x)]: the number of
    characters the conversion would write. *)
Definition mpfr_snprintf_size (fmt : list ascii) (x : mpfr_t) : Z :=
  fst (mpfr_sprintf fmt x).

(** ** simdjson, DOM API *)

Inductive error_code : Type :=
| INCORRECT_TYPE
| NO_SUCH_FIELD
| INDEX_OUT_OF_BOUNDS
| NUMBER_OUT_OF_RANGE
| TAPE_ERROR.

Inductive simdjson_result (A : Type) : Type :=
| sj_value (a : A)
| sj_error (e : error_code).

Arguments sj_value {A} a.
Arguments sj_error {A} e.

(** A parsed document.  Integers are stored as [int64_t] when they fit,
    as [uint64_t] otherwise; a [double] keeps its literal.  A string holds
    its decoded characters, which may include NUL. *)
#[warnings="-register-all"]
Inductive element : Type :=
| json_null
| json_bool (b : bool)
| json_int64 (i : Z)
| json_uint64 (u : Z)
| json_double (literal : list ascii)
| json_string (s : list ascii)
| json_array (a : list element)
| json_object (o : list (list ascii * element)).

Definition is_array (e : element) : bool :=
  match e with json_array _ => true | _ => false end.

Definition is_object (e : element) : bool :=
  match e with json_object _ => true | _ => false end.

Definition get_array (e : element) : simdjson_result (list element) :=
  match e with
  | json_array a => sj_value a
  | _ => sj_error INCORRECT_TYPE
  end.

(** [array::size()] is a count stored in 24 bits: it saturates at
    [0xFFFFFF]. *)
Definition array_size (a : list element) : Z :=
  Z.min (Z.of_nat (List.length a)) 16777215.

(** [array::at(index)] walks the elements; [index] is a [size_t]. *)
Fixpoint array_at (a : list element) (index : Z) : simdjson_result element :=
  match a with
  | [] => sj_error INDEX_OUT_OF_BOUNDS
  | x :: t => if index =? 0 then sj_value x else array_at t (index - 1)
  end.

(** [element::at(index)]. *)
Definition element_at (e : element) (index : Z) : simdjson_result element :=
  match e with
  | json_array a => array_at a index
  | _ => sj_error INCORRECT_TYPE
  end.

(** [object::at_key(key)] returns the first field of that name. *)
Fixpoint object_at_key (o : list (list ascii * element)) (key : list ascii)
  : simdjson_result element :=
  match o with
  | [] => sj_error NO_SUCH_FIELD
  | (k, v) :: t =>
      if list_eq_dec ascii_dec k key then sj_value v else object_at_key t key
  end.

(** [element::operator[](key)]. *)
Definition at_key (e : element) (key : string) : simdjson_result element :=
  match e with
  | json_object o => object_at_key o (str key)
  | _ => sj_error INCORRECT_TYPE
  end.

Definition get_int64 (e : element) : simdjson_result Z :=
  match e with
  | json_int64 i => sj_value i
  | json_uint64 u =>
      if u >? INT64_MAX then sj_error NUMBER_OUT_OF_RANGE else sj_value u
  | _ => sj_error INCORRECT_TYPE
  end.

Definition get_bool (e : element) : simdjson_result bool :=
  match e with
  | json_bool b => sj_value b
  | _ => sj_error INCORRECT_TYPE
  end.

(** [get_c_str()] points at the decoded characters, which a NUL
    terminates: C code sees them up to the first NUL. *)
Definition get_c_str (e : element) : simdjson_result (list ascii) :=
  match e with
  | json_string s => sj_value (c_str s)
  | _ => sj_error INCORRECT_TYPE
  end.

(** A call on a [simdjson_result<element>] forwards to the element and
    keeps an error. *)
Definition forward {A B : Type} (f : A -> simdjson_result B)
  (r : simdjson_result A) : simdjson_result B :=
  match r with
  | sj_value a => f a
  | sj_error e => sj_error e
  end.

(** [is<T>()] on a result: no error, and the cast succeeds. *)
Definition succeeds {A : Type} (r : simdjson_result A) : bool :=
  match r with sj_value _ => true | sj_error _ => false end.

Definition is_int64 (r : simdjson_result element) : bool :=
  succeeds (forward get_int64 r).

Definition is_bool (r : simdjson_result element) : bool :=
  succeeds (forward get_bool r).

Definition is_string (r : simdjson_result element) : bool :=
  succeeds (forward get_c_str r).

(** ** Exceptions and the clock *)

Inductive exception : Type :=
| runtime_error (what : string)
| simdjson_error (e : error_code).

Inductive outcome (A : Type) : Type :=
| Return (a : A)
| Throw (ex : exception).

Arguments Return {A} a.
Arguments Throw {A} ex.

(** What [getNewPrice] gets from outside: whether [createRequest] gave a
    request for each feed, whether [performRequests] succeeded, the two
    response buffers it filled, and what [system_clock::now()] returns at
    its first, second, ... call (in ticks). *)
Record World : Type := {
  mwcRequest : bool;
  btcRequest : bool;
  performRequests : bool;
  mwcResponse : list ascii;
  btcResponse : list ascii;
  system_clock_now : nat -> Z
}.

(** A computation takes the number of clock reads made so far and gives
    its outcome and the number of reads made after it; a thrown exception
    keeps the count. *)
Definition M (A : Type) : Type := nat -> outcome A * nat.

Definition ret {A : Type} (a : A) : M A := fun k => (Return a, k).

Definition throw {A : Type} (ex : exception) : M A := fun k => (Throw ex, k).

Definition bind {A B : Type} (c : M A) (f : A -> M B) : M B :=
  fun k =>
    match c k with
    | (Return a, k') => f a k'
    | (Throw ex, k') => (Throw ex, k')
    end.

Notation "x <- c ;; f" := (bind c (fun x => f))
  (at level 61, c at next level, right associativity).
Notation "c ;; f" := (bind c (fun _ => f))
  (at level 61, right associativity).

Definition now (w : World) : M Z :=
  fun k => (Return (system_clock_now w k), S k).

(** [if (cond) throw runtime_error(what);] *)
Definition throw_if (cond : bool) (what : string) : M unit :=
  if cond then throw (runtime_error what) else ret tt.

(** The conversion of a [simdjson_result] to its value ([.value()], or the
    implicit one) throws on an error. *)
Definition value_of {A : Type} (r : simdjson_result A) : M A :=
  match r with
  | sj_value a => ret a
  | sj_error e => throw (simdjson_error e)
  end.

(** ** [TradeOgre::getNewPrice] *)

(** The loop over the characters of [price], up to its terminating NUL:
    a character that is neither a digit nor a point throws. *)
Fixpoint check_price_chars (price : list ascii) (what : string) : M unit :=
  match price with
  | [] => ret tt
  | i :: rest =>
      if negb (isdigit i) && negb (Ascii.eqb i ".")
      then throw (runtime_error what)
      else check_price_chars rest what
  end.

(** [if(decimal) precision += strlen(price) - (decimal + sizeof('.') - price);]
    with [decimal = strchr(price, '.')]; [precision] is an [unsigned int],
    the right-hand side a [size_t]. *)
Definition update_precision (precision : Z) (price : list ascii) : Z :=
  match strchr price "." with
  | Some decimal =>
      wrap_uint32 (precision + wrap_size_t (strlen price - (decimal + 1)))
  | None => precision
  end.

(** The block the source has once per feed (lines 101-131 for MWC, 151-178
    for BTC): get the price string, check its characters, set the MPFR
    value from it, check the sign, add its fractional digits to
    [precision]. *)
Definition read_price (field : simdjson_result element) (what : string)
  (rop : mpfr_t) (precision : Z) : M (mpfr_t * Z) :=
  price <- value_of (forward get_c_str field) ;;
  check_price_chars price what ;;
  let '(failed, rop) := mpfr_set_str rop price in
  throw_if (negb (failed =? 0) || (mpfr_sgn rop <=? 0)) what ;;
  ret (rop, update_precision precision price).

Section GetNewPrice.

(** [simdjson::dom::parser::parse]. *)
Variable parse : list ascii -> simdjson_result element.

Variable w : World.

(** Lines 29-52: both requests are created, then performed; an empty
    response buffer counts as a failure. *)
Definition perform_requests : M unit :=
  throw_if (negb (mwcRequest w)) "Creating TradeOgre MWC request failed" ;;
  throw_if (negb (btcRequest w)) "Creating TradeOgre BTC request failed" ;;
  throw_if (negb (performRequests w)
            || (strlen (mwcResponse w) =? 0) || (strlen (btcResponse w) =? 0))
    "Performing TradeOgre requests failed".

(** Lines 54-72: the MWC response is a non-empty array and
    [mostRecentPrice = json.at(json.get_array().size() - 1)] is an object
    with an integer [date] and a string [price]. *)
Definition mwc_most_recent_price : M element :=
  json <- value_of (parse (mwcResponse w)) ;;
  invalid <- (if negb (is_array json) then ret true
              else a <- value_of (get_array json) ;; ret (array_size a =? 0)) ;;
  throw_if invalid "TradeOgre MWC response is invalid" ;;
  a <- value_of (get_array json) ;;
  mostRecentPrice <- value_of (element_at json (wrap_size_t (array_size a - 1))) ;;
  throw_if (negb (is_object mostRecentPrice)
            || negb (is_int64 (at_key mostRecentPrice "date"))
            || negb (is_string (at_key mostRecentPrice "price")))
    "TradeOgre MWC most recent price is invalid" ;;
  ret mostRecentPrice.

(** Lines 74-92: the date, its range check, and the timestamp, replaced by
    the current time when it lies in the future.  The clock is read for
    the comparison and read again for the replacement. *)
Definition mwc_timestamp (mostRecentPrice : element) : M Z :=
  date <- value_of (forward get_int64 (at_key mostRecentPrice "date")) ;;
  throw_if ((date <? duration_cast_seconds time_point_min)
            || (date >? duration_cast_seconds time_point_max))
    "TradeOgre date is invalid" ;;
  let timestamp := time_point_of_seconds date in
  t <- now w ;;
  if timestamp >? t then now w else ret timestamp.

(** Lines 133-142: the BTC response is an object with a true [success]
    and a string [price]. *)
Definition btc_response : M element :=
  json <- value_of (parse (btcResponse w)) ;;
  invalid <- (if negb (is_object json) then ret true
              else if negb (is_bool (at_key json "success")) then ret true
              else success <- value_of (forward get_bool (at_key json "success")) ;;
                   if negb success then ret true
                   else ret (negb (is_string (at_key json "price")))) ;;
  throw_if invalid "TradeOgre BTC response is invalid" ;;
  ret json.

(** Lines 180-222: the product, its sign check, the two formatting calls
    and the removal of trailing zeros. *)
Definition multiply_and_format (mwcPrice btcPrice : mpfr_t) (precision : Z)
  : M (list ascii) :=
  let mwcPrice := mpfr_mul mwcPrice mwcPrice btcPrice in
  throw_if (mpfr_sgn mwcPrice <=? 0) "TradeOgre result is invalid" ;;
  let format := str "%." ++ to_string precision ++ str "R*F" in
  let resultSize := mpfr_snprintf_size format mwcPrice in
  throw_if (resultSize <=? 0) "Getting TradeOgre result size failed" ;;
  let '(written, result) := mpfr_sprintf format mwcPrice in
  throw_if (negb (written =? resultSize)) "Getting TradeOgre result failed" ;;
  ret (canonicalize result).

Definition getNewPrice : M (Z * list ascii) :=
  perform_requests ;;
  mostRecentPrice <- mwc_most_recent_price ;;
  timestamp <- mwc_timestamp mostRecentPrice ;;
  r <- read_price (at_key mostRecentPrice "price")
         "TradeOgre MWC price is invalid" (mpfr_init2 PRECISION) 0 ;;
  let '(mwcPrice, precision) := r in
  json <- btc_response ;;
  r <- read_price (at_key json "price")
         "TradeOgre BTC price is invalid" (mpfr_init2 PRECISION) precision ;;
  let '(btcPrice, precision) := r in
  result <- multiply_and_format mwcPrice btcPrice precision ;;
  ret (timestamp, result).

End GetNewPrice.

(** ** A reference JSON reader

    [getNewPrice] is stated for any [parse].  The reader below stands for
    simdjson where a property is run on the text of a response.  It reads
    JSON with these limits: a [\u] escape must name a code point below 128,
    and a number with a fraction or an exponent is kept as its literal. *)

Definition is_ws (c : ascii) : bool :=
  Ascii.eqb c " " || Ascii.eqb c "009" || Ascii.eqb c "010" || Ascii.eqb c "013".

Fixpoint skip_ws (s : list ascii) : list ascii :=
  match s with
  | c :: t => if is_ws c then skip_ws t else s
  | [] => []
  end.

Definition hex_value (c : ascii) : option Z :=
  let n := Z.of_N (N_of_ascii c) in
  if (48 <=? n) && (n <=? 57) then Some (n - 48)
  else if (65 <=? n) && (n <=? 70) then Some (n - 55)
  else if (97 <=? n) && (n <=? 102) then Some (n - 87)
  else None.

Definition read_hex4 (a b c d : ascii) : option Z :=
  match hex_value a, hex_value b, hex_value c, hex_value d with
  | Some x, Some y, Some z, Some t => Some (((x * 16 + y) * 16 + z) * 16 + t)
  | _, _, _, _ => None
  end.

(** The characters of a string after its opening quote, and what follows
    the closing quote. *)
Fixpoint read_string (fuel : nat) (s acc : list ascii)
  : option (list ascii * list ascii) :=
  match fuel with
  | O => None
  | S fuel' =>
      match s with
      | [] => None
      | "034"%char :: t => Some (rev acc, t)
      | "\"%char :: "u"%char :: a :: b :: c :: d :: t =>
          match read_hex4 a b c d with
          | Some n =>
              if n <? 128 then read_string fuel' t (ascii_of_N (Z.to_N n) :: acc)
              else None
          | None => None
          end
      | "\"%char :: e :: t =>
          let unescaped :=
            if Ascii.eqb e "034" then Some "034"%char
            else if Ascii.eqb e "\" then Some "\"%char
            else if Ascii.eqb e "/" then Some "/"%char
            else if Ascii.eqb e "b" then Some "008"%char
            else if Ascii.eqb e "f" then Some "012"%char
            else if Ascii.eqb e "n" then Some "010"%char
            else if Ascii.eqb e "r" then Some "013"%char
            else if Ascii.eqb e "t" then Some "009"%char
            else None in
          match unescaped with
          | Some c => read_string fuel' t (c :: acc)
          | None => None
          end
      | c :: t =>
          if Z.of_N (N_of_ascii c) <? 32 then None
          else read_string fuel' t (c :: acc)
      end
  end.

(** The longest prefix of digits and the rest. *)
Fixpoint span_digits (s : list ascii) : list ascii * list ascii :=
  match s with
  | c :: t =>
      if isdigit c then let '(ds, r) := span_digits t in (c :: ds, r)
      else ([], s)
  | [] => ([], [])
  end.

Definition integer_element (negative : bool) (n : Z) (literal : list ascii)
  : element :=
  let z := if negative then - n else n in
  if (INT64_MIN <=? z) && (z <=? INT64_MAX) then json_int64 z
  else if negb negative && (z <=? 2 ^ 64 - 1) then json_uint64 z
  else json_double literal.

(** An exponent part, if there is one: its characters and the rest. *)
Definition read_exponent (s : list ascii) : option (list ascii * list ascii) :=
  match s with
  | e :: t =>
      if Ascii.eqb e "e" || Ascii.eqb e "E" then
        let '(sign, t') :=
          match t with
          | c :: u => if Ascii.eqb c "+" || Ascii.eqb c "-" then ([c], u) else ([], t)
          | [] => ([], t)
          end in
        match span_digits t' with
        | ([], _) => None
        | (ds, rest) => Some (e :: sign ++ ds, rest)
        end
      else Some ([], s)
  | [] => Some ([], s)
  end.

(** A number: an integer goes to [int64_t], or to [uint64_t], when it
    fits; anything else is a [double]. *)
Definition read_number (s : list ascii) : option (element * list ascii) :=
  let '(negative, body) :=
    match s with
    | "-"%char :: t => (true, t)
    | _ => (false, s)
    end in
  let sign := if negative then ["-"%char] else [] in
  match span_digits body with
  | ([], _) => None
  | ("0"%char :: _ :: _, _) => None
  | (ds, after) =>
      let '(fraction, after') :=
        match after with
        | "."%char :: t =>
            match span_digits t with
            | ([], _) => (None, after)
            | (fs, r) => (Some ("."%char :: fs), r)
            end
        | _ => (Some [], after)
        end in
      match fraction, read_exponent after' with
      | Some fs, Some (es, rest) =>
          match fs, es, read_digits ds 0 with
          | [], [], Some n => Some (integer_element negative n (sign ++ ds), rest)
          | _, _, _ => Some (json_double (sign ++ ds ++ fs ++ es), rest)
          end
      | _, _ => None
      end
  end.

Fixpoint read_value (fuel : nat) (s : list ascii) : option (element * list ascii) :=
  match fuel with
  | O => None
  | S fuel' =>
      match skip_ws s with
      | "n"%char :: "u"%char :: "l"%char :: "l"%char :: r => Some (json_null, r)
      | "t"%char :: "r"%char :: "u"%char :: "e"%char :: r => Some (json_bool true, r)
      | "f"%char :: "a"%char :: "l"%char :: "s"%char :: "e"%char :: r =>
          Some (json_bool false, r)
      | "034"%char :: r =>
          match read_string (S (List.length r)) r [] with
          | Some (x, r') => Some (json_string x, r')
          | None => None
          end
      | "["%char :: r =>
          match skip_ws r with
          | "]"%char :: r' => Some (json_array [], r')
          | _ => read_elements fuel' r []
          end
      | "{"%char :: r =>
          match skip_ws r with
          | "}"%char :: r' => Some (json_object [], r')
          | _ => read_fields fuel' r []
          end
      | r => read_number r
      end
  end

with read_elements (fuel : nat) (s : list ascii) (acc : list element)
  : option (element * list ascii) :=
  match fuel with
  | O => None
  | S fuel' =>
      match read_value fuel' s with
      | Some (x, r) =>
          match skip_ws r with
          | ","%char :: r' => read_elements fuel' r' (x :: acc)
          | "]"%char :: r' => Some (json_array (rev (x :: acc)), r')
          | _ => None
          end
      | None => None
      end
  end

with read_fields (fuel : nat) (s : list ascii) (acc : list (list ascii * element))
  : option (element * list ascii) :=
  match fuel with
  | O => None
  | S fuel' =>
      match skip_ws s with
      | "034"%char :: r =>
          match read_string (S (List.length r)) r [] with
          | Some (key, r1) =>
              match skip_ws r1 with
              | ":"%char :: r2 =>
                  match read_value fuel' r2 with
                  | Some (x, r3) =>
                      match skip_ws r3 with
                      | ","%char :: r4 => read_fields fuel' r4 ((key, x) :: acc)
                      | "}"%char :: r4 =>
                          Some (json_object (rev ((key, x) :: acc)), r4)
                      | _ => None
                      end
                  | None => None
                  end
              | _ => None
              end
          | None => None
          end
      | _ => None
      end
  end.

Definition json_parse (text : list ascii) : simdjson_result element :=
  match read_value (S (List.length text)) text with
  | Some (x, rest) =>
      match skip_ws rest with
      | [] => sj_value x
      | _ => sj_error TAPE_ERROR
      end
  | None => sj_error TAPE_ERROR
  end.

(** ** Vocabulary of the properties *)

Definition digit_or_point (c : ascii) : bool := isdigit c || Ascii.eqb c ".".

Definition count_points (s : list ascii) : nat :=
  List.length (filter (fun c => Ascii.eqb c ".") s).


(** A decimal string: digits with at most one point, and at least one
    digit. *)
Definition decimal_string (s : list ascii) : bool :=
  forallb digit_or_point s && (count_points s <=? 1)%nat && existsb isdigit s.

Definition nonzero_digit (c : ascii) : bool :=
  isdigit c && negb (Ascii.eqb c "0").

(** A decimal string of a value above zero. *)
Definition positive_decimal (s : list ascii) : bool :=
  decimal_string s && existsb nonzero_digit s.

(** The number of characters after the point, [0] without a point. *)
Definition fraction_digits (s : list ascii) : Z :=
  match strchr s "." with
  | Some d => strlen s - (d + 1)
  | None => 0
  end.

(** A canonical decimal string: no dangling point and, after a point, no
    trailing zero. *)
Definition canonical (s : list ascii) : bool :=
  decimal_string s
  && negb (back_is s ".")
  && negb (existsb (Ascii.eqb ".") s && back_is s "0").

(** The MPFR value [getNewPrice] gets from a price string, and the
    product of two of them. *)
Definition price_value (s : list ascii) : mpfr_t :=
  snd (mpfr_set_str (mpfr_init2 PRECISION) s).

Definition price_product (a b : list ascii) : mpfr_t :=
  mpfr_mul (price_value a) (price_value a) (price_value b).

(** [precision] after both price blocks. *)
Definition total_precision (a b : list ascii) : Z :=
  update_precision (update_precision 0 a) b.

(** The text both formatting calls produce for two price strings. *)
Definition rendered (a b : list ascii) : list ascii :=
  format_F (total_precision a b) (price_product a b).

(** The integer a string of digits and points denotes once the point is
    dropped, as [mpfr_set_str] reads it. *)
Definition scaled_value (s : list ascii) : Z :=
  let '(mant, _, _, _) := scan_mantissa s false 0 0 0 in mant.

(** [d * 2 ^ x <= n], with the power moved to the side where its exponent
    is not negative. *)
Definition scaled_le (n d x : Z) : Prop :=
  d * 2 ^ Z.max 0 x <= n * 2 ^ Z.max 0 (- x).

(** The transport handed over two non-empty responses. *)
Definition delivered (w : World) : Prop :=
  mwcRequest w = true /\ btcRequest w = true /\ performRequests w = true
  /\ mwcResponse w <> [] /\ btcResponse w <> [].

(** [e] is an observation of feed A with this date and price. *)
Definition observation (date : Z) (price : list ascii) (e : element) : Prop :=
  is_object e = true
  /\ forward get_int64 (at_key e "date") = sj_value date
  /\ at_key e "price" = sj_value (json_string price).

(** [e] is a ticker of feed B with this flag and price. *)
Definition ticker (success : bool) (price : list ascii) (e : element) : Prop :=
  is_object e = true
  /\ at_key e "success" = sj_value (json_bool success)
  /\ at_key e "price" = sj_value (json_string price).

Definition date_in_range (date : Z) : Prop :=
  duration_cast_seconds time_point_min <= date
  <= duration_cast_seconds time_point_max.

(** What lines 85-92 make of a time stamp when [k] reads of the clock
    came before: the time stamp kept or replaced, and the number of reads
    after. *)
Definition clamp (w : World) (timestamp : Z) (k : nat) : Z * nat :=
  if timestamp >? system_clock_now w k
  then (system_clock_now w (S k), S (S k))
  else (timestamp, S k).

(** The value of a run of digits read after [a]. *)
Definition digits_fold (ds : list ascii) (a : Z) : Z :=
  fold_left (fun a c => 10 * a + digit_value c) ds a.

(** [s] without its trailing run of [c]. *)
Fixpoint strip_trailing (c : ascii) (s : list ascii) : list ascii :=
  match s with
  | [] => []
  | x :: t =>
      match strip_trailing c t with
      | [] => if Ascii.eqb x c then [] else [x]
      | t' => x :: t'
      end
  end.

(** The same world with another MWC response. *)
Definition with_mwcResponse (w : World) (r : list ascii) : World :=
  {| mwcRequest := mwcRequest w;
     btcRequest := btcRequest w;
     performRequests := performRequests w;
     mwcResponse := r;
     btcResponse := btcResponse w;
     system_clock_now := system_clock_now w |}.


(** The first step of the canonicalisation block (lines 210-214): the
    string on which [back()] is called the second time. *)
Definition after_zero_removal (result : list ascii) : list ascii :=
  if back_is result "0"
  then substr0 result (wrap_size_t (find_last_not_of result "0" + 1))
  else result.

(** A computation that does not read the clock. *)
Definition reads_no_clock {A : Type} (c : M A) : Prop :=
  forall k, snd (c k) = k.

(** The rational number an MPFR value is, and the one a decimal string
    denotes. *)
Definition mpfr_rational (v : mpfr_value) : Q :=
  match v with
  | mpfr_reg m e => inject_Z m * 2 ^ e
  | _ => 0
  end.

Definition decimal_rational (s : list ascii) : Q :=
  inject_Z (scaled_value s) / inject_Z (10 ^ fraction_digits s).

(** ** Example worlds *)

(** A response text, written with ['] for the double quote. *)
Definition json_text (s : string) : list ascii :=
  map (fun c => if Ascii.eqb c "'" then "034"%char else c) (str s).

(** A world where the transport succeeds with these two responses. *)
Definition world (mwc btc : list ascii) (clock : nat -> Z) : World :=
  {| mwcRequest := true;
     btcRequest := true;
     performRequests := true;
     mwcResponse := mwc;
     btcResponse := btc;
     system_clock_now := clock |}.

(** A clock that stands at 1800000000 seconds after the epoch. *)
Definition clock_2027 : nat -> Z := fun _ => 1800000000 * ticks_per_second.

(** A parsed observation and a parsed ticker. *)
Definition observation_object (date : Z) (price : string) : element :=
  json_object [(str "date", json_int64 date); (str "price", json_string (str price))].

Definition ticker_object (success : bool) (price : string) : element :=
  json_object [(str "success", json_bool success);
               (str "price", json_string (str price))].

(** A document of 16777216 observations: 16777215 times the observation
    of date 1750000000 and price 9, and then, last, the observation of
    date 1700000000 and price 0.01234. *)
Definition many_observations : list element :=
  repeat (observation_object 1750000000 "9") (Z.to_nat 16777215)
  ++ [observation_object 1700000000 "0.01234"].

(** A reader that takes a text opening an array for the text of that
    document, whose hundreds of megabytes are not written out, and reads
    any other text as [json_parse] does. *)
Definition parse_many_observations (text : list ascii)
  : simdjson_result element :=
  match text with
  | "["%char :: _ => sj_value (json_array many_observations)
  | _ => json_parse text
  end.

(** The world of that response. *)
Definition world_many_observations : World :=
  world (str "[ 16777216 observations ]")
        (json_text "{'success':true,'price':'65000.50'}")
        clock_2027.

(** * Properties *)

(** ** The monad *)

Lemma bind_Return {A B : Type} (c : M A) (f : A -> M B) k a k' :
  c k = (Return a, k') -> bind c f k = f a k'.
Proof. intros H. unfold bind. now rewrite H. Qed.

Lemma bind_Throw {A B : Type} (c : M A) (f : A -> M B) k ex k' :
  c k = (Throw ex, k') -> bind c f k = (Throw ex, k').
Proof. intros H. unfold bind. now rewrite H. Qed.

Lemma throw_if_false what k : throw_if false what k = (Return tt, k).
Proof. reflexivity. Qed.

Lemma throw_if_true what k :
  throw_if true what k = (Throw (runtime_error what), k).
Proof. reflexivity. Qed.

(** ** Characters *)

Lemma isdigit_range c :
  isdigit c = true <-> 0 <= digit_value c <= 9.
Proof.
  unfold isdigit, digit_value. rewrite andb_true_iff, !Z.leb_le. lia.
Qed.

Lemma isdigit_not_point c : isdigit c = true -> Ascii.eqb c "." = false.
Proof.
  intros H. destruct (Ascii.eqb_spec c ".") as [->|]; [discriminate H|reflexivity].
Qed.

Lemma digit_char_spec d :
  0 <= d <= 9 -> isdigit (digit_char d) = true /\ digit_value (digit_char d) = d.
Proof.
  intros H.
  assert (E : d = 0 \/ d = 1 \/ d = 2 \/ d = 3 \/ d = 4 \/ d = 5 \/ d = 6
              \/ d = 7 \/ d = 8 \/ d = 9) by lia.
  repeat (destruct E as [-> | E]; [split; reflexivity|]).
  subst d. split; reflexivity.
Qed.

Lemma strlen_nonneg s : 0 <= strlen s.
Proof. unfold strlen. lia. Qed.

Lemma strlen_app s t : strlen (s ++ t) = strlen s + strlen t.
Proof. unfold strlen. rewrite length_app. lia. Qed.

Lemma strlen_zero s : (strlen s =? 0) = false <-> s <> [].
Proof.
  unfold strlen. rewrite Z.eqb_neq. destruct s; simpl; split; intros; try lia; congruence.
Qed.

(** ** Rounding *)


Lemma rndn_div_lower n d : 0 <= n -> 0 < d -> n / d <= rndn_div n d.
Proof.
  intros Hn Hd. unfold rndn_div.
  destruct (2 * (n mod d) ?= d); [destruct (Z.even (n / d))| |]; lia.
Qed.

Lemma scaled_le_mono n d x y :
  0 < n -> 0 < d -> y <= x -> scaled_le n d x -> scaled_le n d y.
Proof.
  unfold scaled_le. intros Hn Hd Hyx H.
  assert (P1 : 0 < 2 ^ Z.max 0 x) by (apply Z.pow_pos_nonneg; lia).
  assert (P2 : 0 < 2 ^ Z.max 0 (- x)) by (apply Z.pow_pos_nonneg; lia).
  assert (M1 : 2 ^ Z.max 0 y <= 2 ^ Z.max 0 x) by (apply Z.pow_le_mono_r; lia).
  assert (M2 : 2 ^ Z.max 0 (- x) <= 2 ^ Z.max 0 (- y)) by (apply Z.pow_le_mono_r; lia).
  nia.
Qed.

Lemma floor_log2_ratio_lower n d :
  0 < n -> 0 < d -> scaled_le n d (floor_log2_ratio n d).
Proof.
  intros Hn Hd. unfold floor_log2_ratio.
  set (k := Z.log2 n - Z.log2 d).
  destruct (Z.leb_spec (d * 2 ^ Z.max 0 k) (n * 2 ^ Z.max 0 (- k))) as [L|L].
  - exact L.
  - unfold scaled_le.
    pose proof (Z.log2_spec n Hn) as [Ln _].
    pose proof (Z.log2_spec d Hd) as [_ Ld].
    pose proof (Z.log2_nonneg n) as Nn. pose proof (Z.log2_nonneg d) as Nd.
    destruct (Z.le_gt_cases 0 (k - 1)) as [K|K].
    + rewrite (Z.max_r 0 (k - 1)) by lia. rewrite (Z.max_l 0 (- (k - 1))) by lia.
      rewrite Z.pow_0_r, Z.mul_1_r.
      assert (E : 2 ^ Z.log2 n = 2 ^ Z.succ (Z.log2 d) * 2 ^ (k - 1)).
      { rewrite <- Z.pow_add_r by lia. f_equal. unfold k. lia. }
      assert (0 < 2 ^ (k - 1)) by (apply Z.pow_pos_nonneg; lia).
      nia.
    + rewrite (Z.max_l 0 (k - 1)) by lia. rewrite (Z.max_r 0 (- (k - 1))) by lia.
      rewrite Z.pow_0_r, Z.mul_1_r.
      assert (E : 2 ^ Z.succ (Z.log2 d) = 2 ^ Z.log2 n * 2 ^ (- (k - 1))).
      { rewrite <- Z.pow_add_r by lia. f_equal. unfold k. lia. }
      assert (0 < 2 ^ (- (k - 1))) by (apply Z.pow_pos_nonneg; lia).
      nia.
Qed.

(** Rounding a ratio above zero gives a number with a significand above
    zero. *)
Lemma mpfr_round_positive prec n d :
  0 < prec -> 0 < n -> 0 < d ->
  exists m e, mpfr_round prec n d = mpfr_reg m e /\ 0 < m.
Proof.
  intros Hp Hn Hd. unfold mpfr_round.
  set (e := floor_log2_ratio n d - prec + 1).
  set (m := rndn_div _ _).
  destruct (m =? 2 ^ prec).
  - eexists _, _. split; [reflexivity|]. apply Z.pow_pos_nonneg; lia.
  - exists m, e. split; [reflexivity|].
    assert (S : scaled_le n d e).
    { apply scaled_le_mono with (x := floor_log2_ratio n d); try lia.
      now apply floor_log2_ratio_lower. }
    unfold scaled_le in S.
    assert (P1 : 0 < 2 ^ Z.max 0 e) by (apply Z.pow_pos_nonneg; lia).
    assert (P2 : 0 < 2 ^ Z.max 0 (- e)) by (apply Z.pow_pos_nonneg; lia).
    assert (L : 1 <= (n * 2 ^ Z.max 0 (- e)) / (d * 2 ^ Z.max 0 e)).
    { apply Z.div_le_lower_bound; nia. }
    pose proof (rndn_div_lower (n * 2 ^ Z.max 0 (- e)) (d * 2 ^ Z.max 0 e)
                  ltac:(nia) ltac:(nia)).
    subst m. lia.
Qed.

Lemma mpfr_mul_positive rop a b m1 e1 m2 e2 :
  0 < mpfr_prec rop ->
  mpfr_val a = mpfr_reg m1 e1 -> 0 < m1 ->
  mpfr_val b = mpfr_reg m2 e2 -> 0 < m2 ->
  exists m e, mpfr_val (mpfr_mul rop a b) = mpfr_reg m e /\ 0 < m
              /\ mpfr_prec (mpfr_mul rop a b) = mpfr_prec rop.
Proof.
  intros Hp Ha H1 Hb H2. unfold mpfr_mul. simpl. rewrite Ha, Hb.
  destruct (mpfr_round_positive (mpfr_prec rop) (m1 * m2) 1 Hp ltac:(nia) ltac:(lia))
    as (m & e & E & Pm).
  rewrite E. eauto.
Qed.

(** ** The character loop and [mpfr_set_str] *)

Lemma check_price_chars_ok price what k :
  forallb digit_or_point price = true ->
  check_price_chars price what k = (Return tt, k).
Proof.
  induction price as [|c t IH]; simpl; intros H; [reflexivity|].
  apply andb_true_iff in H as [Hc Ht]. unfold digit_or_point in Hc.
  rewrite <- negb_orb, Hc. simpl. auto.
Qed.

Lemma check_price_chars_bad price what k :
  forallb digit_or_point price = false ->
  check_price_chars price what k = (Throw (runtime_error what), k).
Proof.
  induction price as [|c t IH]; simpl; intros H; [discriminate|].
  rewrite <- negb_orb. fold (digit_or_point c).
  destruct (digit_or_point c); simpl in *; auto.
Qed.

Lemma nonzero_digit_value c : nonzero_digit c = true -> 0 < digit_value c.
Proof.
  unfold nonzero_digit. intros H. apply andb_true_iff in H as [D N].
  apply isdigit_range in D.
  destruct (Z.eq_dec (digit_value c) 0) as [E|]; [|lia].
  exfalso. unfold digit_value in E.
  assert (c = "0"%char) as ->.
  { rewrite <- (ascii_N_embedding c).
    replace (N_of_ascii c) with 48%N by lia. reflexivity. }
  discriminate N.
Qed.

Lemma zero_digit_value c :
  isdigit c = true -> nonzero_digit c = false -> digit_value c = 0.
Proof.
  unfold nonzero_digit. intros D N. rewrite D in N. simpl in N.
  apply negb_false_iff in N. apply Ascii.eqb_eq in N. now subst c.
Qed.

Lemma count_points_cons c t :
  count_points (c :: t)
  = ((if Ascii.eqb c "." then 1 else 0) + count_points t)%nat.
Proof. unfold count_points. simpl. now destruct (Ascii.eqb c "."). Qed.

(** What the scan of a string of digits and points returns. *)
Lemma scan_mantissa_spec s :
  forall point mant nd frac mant' nd' frac' rest,
    forallb digit_or_point s = true ->
    0 <= mant -> 0 <= frac ->
    scan_mantissa s point mant nd frac = (mant', nd', frac', rest) ->
    nd <= nd' /\ mant <= mant' /\ 0 <= frac'
    /\ (existsb isdigit s = false -> nd' = nd)
    /\ (mant = 0 -> existsb nonzero_digit s = false -> mant' = 0)
    /\ ((count_points s + (if point then 1 else 0) <= 1)%nat ->
        rest = []
        /\ (existsb isdigit s = true -> nd < nd')
        /\ (existsb nonzero_digit s = true -> 0 < mant'))
    /\ ((1 < count_points s + (if point then 1 else 0))%nat -> rest <> []).
Proof.
  induction s as [|c t IH];
    intros point mant nd frac mant' nd' frac' rest Hs Hm Hf E.
  - simpl in E. inversion E; subst. simpl.
    repeat split; try lia; try discriminate; auto.
    destruct point; simpl; lia.
  - simpl in Hs. apply andb_true_iff in Hs as [Hc Ht].
    simpl in E. rewrite count_points_cons. simpl existsb.
    destruct (Ascii.eqb c ".") eqn:Ep.
    + assert (Dc : isdigit c = false).
      { destruct (isdigit c) eqn:D; [|reflexivity].
        apply isdigit_not_point in D. congruence. }
      assert (Nc : nonzero_digit c = false) by (unfold nonzero_digit; now rewrite Dc).
      rewrite Dc, Nc. simpl orb.
      destruct point.
      * inversion E; subst.
        split; [lia|]. split; [lia|]. split; [lia|]. split; [auto|].
        split; [auto|]. split; [intros; lia|]. intros _; discriminate.
      * specialize (IH true mant nd frac mant' nd' frac' rest Ht Hm Hf E).
        destruct IH as (I1 & I2 & I0 & I3 & I4 & I5 & I6).
        split; [lia|]. split; [lia|]. split; [lia|]. split; [auto|].
        split; [auto|]. split; [intros; apply I5; lia|]. intros; apply I6; lia.
    + unfold digit_or_point in Hc. rewrite Ep, orb_false_r in Hc. rewrite Hc in E.
      pose proof (proj1 (isdigit_range c) Hc) as R.
      specialize (IH point (10 * mant + digit_value c) (nd + 1)
                    (if point then frac + 1 else frac) mant' nd' frac' rest Ht
                    ltac:(lia) ltac:(destruct point; lia) E).
      destruct IH as (I1 & I2 & I0 & I3 & I4 & I5 & I6).
      rewrite Hc. simpl orb.
      split; [lia|]. split; [lia|]. split; [lia|]. split; [discriminate|].
      split.
      { intros Z0 NZ. apply orb_false_iff in NZ as [N1 N2].
        apply I4; auto. rewrite (zero_digit_value c Hc N1). lia. }
      split.
      { intros C. destruct (I5 ltac:(lia)) as (J1 & J2 & J3).
        split; [auto|]. split; [intros _|intros NZ].
        - destruct (existsb isdigit t) eqn:Dt; [specialize (J2 eq_refl); lia|].
          specialize (I3 eq_refl). lia.
        - apply orb_true_iff in NZ as [N1|N2]; [|auto].
          apply nonzero_digit_value in N1. lia. }
      intros C. apply I6. lia.
Qed.

(** A string of digits and points that is not a decimal string is
    refused by [mpfr_set_str]. *)
Lemma mpfr_set_str_refuses rop s :
  forallb digit_or_point s = true -> decimal_string s = false ->
  fst (mpfr_set_str rop s) = -1.
Proof.
  intros Hs Hd. unfold mpfr_set_str.
  destruct s as [|c t]; [reflexivity|].
  remember (c :: t) as s eqn:Es.
  destruct (scan_mantissa s false 0 0 0) as [[[mant nd] frac] rest] eqn:E.
  destruct (scan_mantissa_spec s false 0 0 0 mant nd frac rest Hs ltac:(lia)
              ltac:(lia) E) as (I1 & I2 & I0 & I3 & I4 & I5 & I6).
  unfold decimal_string in Hd. rewrite Hs in Hd. simpl in Hd.
  destruct (nd =? 0) eqn:N0; [reflexivity|]. simpl.
  apply Z.eqb_neq in N0.
  destruct (existsb isdigit s) eqn:Dg.
  - rewrite andb_true_r in Hd. apply Nat.leb_gt in Hd.
    destruct rest; [|reflexivity]. exfalso. apply I6; [lia|reflexivity].
  - specialize (I3 eq_refl). lia.
Qed.

(** A decimal string of value zero is accepted and gives zero. *)
Lemma mpfr_set_str_zero rop s :
  decimal_string s = true -> existsb nonzero_digit s = false ->
  mpfr_set_str rop s = (0, {| mpfr_prec := mpfr_prec rop; mpfr_val := mpfr_zero |}).
Proof.
  intros Hd Hz. unfold decimal_string in Hd.
  apply andb_true_iff in Hd as [Hd Dg]. apply andb_true_iff in Hd as [Hs Hc].
  apply Nat.leb_le in Hc.
  unfold mpfr_set_str.
  destruct s as [|c t]; [discriminate Dg|].
  remember (c :: t) as s eqn:Es.
  destruct (scan_mantissa s false 0 0 0) as [[[mant nd] frac] rest] eqn:E.
  destruct (scan_mantissa_spec s false 0 0 0 mant nd frac rest Hs ltac:(lia)
              ltac:(lia) E) as (I1 & I2 & I0 & I3 & I4 & I5 & I6).
  destruct (I5 ltac:(lia)) as (R & N & _). specialize (N Dg).
  rewrite (I4 eq_refl Hz). subst rest.
  destruct (Z.eqb_spec nd 0); [lia|]. reflexivity.
Qed.

(** A decimal string of a value above zero is accepted and gives a number
    above zero. *)
Lemma mpfr_set_str_positive rop s :
  0 < mpfr_prec rop -> positive_decimal s = true ->
  exists m e,
    mpfr_set_str rop s
    = (0, {| mpfr_prec := mpfr_prec rop; mpfr_val := mpfr_reg m e |})
    /\ 0 < m.
Proof.
  intros Hp Hd. unfold positive_decimal in Hd.
  apply andb_true_iff in Hd as [Hd Hz]. fold nonzero_digit in Hz.
  unfold decimal_string in Hd.
  apply andb_true_iff in Hd as [Hd Dg]. apply andb_true_iff in Hd as [Hs Hc].
  apply Nat.leb_le in Hc.
  unfold mpfr_set_str.
  destruct s as [|c t]; [discriminate Dg|].
  remember (c :: t) as s eqn:Es.
  destruct (scan_mantissa s false 0 0 0) as [[[mant nd] frac] rest] eqn:E.
  destruct (scan_mantissa_spec s false 0 0 0 mant nd frac rest Hs ltac:(lia)
              ltac:(lia) E) as (I1 & I2 & I0 & I3 & I4 & I5 & I6).
  destruct (I5 ltac:(lia)) as (R & N & P). specialize (N Dg). specialize (P Hz).
  subst rest.
  destruct (Z.eqb_spec nd 0); [lia|].
  destruct (Z.eqb_spec mant 0); [lia|].
  destruct (mpfr_round_positive (mpfr_prec rop) mant (10 ^ frac) Hp P) as (m & e & Er & Pm).
  { apply Z.pow_pos_nonneg; lia. }
  rewrite Er. eauto.
Qed.

(** ** The price block *)

Lemma mpfr_init2_prec : mpfr_prec (mpfr_init2 PRECISION) = 256.
Proof. reflexivity. Qed.

(** A character that is neither a digit nor a point stops the block in
    its loop. *)
Lemma read_price_bad_char s what rop precision k :
  forallb digit_or_point (c_str s) = false ->
  read_price (sj_value (json_string s)) what rop precision k
  = (Throw (runtime_error what), k).
Proof.
  intros H. unfold read_price. simpl forward. simpl value_of.
  rewrite (bind_Return _ _ k (c_str s) k) by reflexivity.
  now rewrite (bind_Throw _ _ k (runtime_error what) k)
    by now apply check_price_chars_bad.
Qed.

(** Digits and points that make no number above zero pass the loop and
    stop the block at the check of [mpfr_set_str] and [mpfr_sgn]. *)
Lemma read_price_not_positive s what rop precision k :
  forallb digit_or_point (c_str s) = true ->
  positive_decimal (c_str s) = false ->
  read_price (sj_value (json_string s)) what rop precision k
  = (Throw (runtime_error what), k).
Proof.
  intros Hs Hp. unfold read_price. simpl forward. simpl value_of.
  rewrite (bind_Return _ _ k (c_str s) k) by reflexivity.
  rewrite (bind_Return _ _ k tt k) by now apply check_price_chars_ok.
  destruct (decimal_string (c_str s)) eqn:Hd.
  - unfold positive_decimal in Hp. rewrite Hd in Hp. simpl in Hp.
    rewrite (mpfr_set_str_zero rop _ Hd Hp). reflexivity.
  - pose proof (mpfr_set_str_refuses rop _ Hs Hd) as R.
    destruct (mpfr_set_str rop (c_str s)) as [failed rop']. simpl in R. subst failed.
    reflexivity.
Qed.

(** A decimal string above zero gives its MPFR value and adds its
    fractional digits to [precision]. *)
Lemma read_price_positive s what rop precision k :
  0 < mpfr_prec rop ->
  positive_decimal (c_str s) = true ->
  read_price (sj_value (json_string s)) what rop precision k
  = (Return (snd (mpfr_set_str rop (c_str s)),
             update_precision precision (c_str s)), k).
Proof.
  intros Hr Hp. unfold read_price. simpl forward. simpl value_of.
  rewrite (bind_Return _ _ k (c_str s) k) by reflexivity.
  assert (Hs : forallb digit_or_point (c_str s) = true).
  { unfold positive_decimal, decimal_string in Hp.
    repeat (apply andb_true_iff in Hp as [Hp _]). exact Hp. }
  rewrite (bind_Return _ _ k tt k) by now apply check_price_chars_ok.
  destruct (mpfr_set_str_positive rop _ Hr Hp) as (m & e & E & Pm).
  rewrite E. unfold mpfr_sgn. simpl.
  replace (Z.sgn m) with 1 by (destruct m; simpl; lia).
  reflexivity.
Qed.

Lemma price_value_positive s :
  positive_decimal s = true ->
  exists m e, mpfr_val (price_value s) = mpfr_reg m e /\ 0 < m
              /\ mpfr_prec (price_value s) = 256.
Proof.
  intros Hp. unfold price_value.
  destruct (mpfr_set_str_positive (mpfr_init2 PRECISION) s ltac:(reflexivity) Hp)
    as (m & e & E & Pm).
  rewrite E. simpl. eauto.
Qed.

(** ** The time stamp *)

Lemma seconds_min : duration_cast_seconds time_point_min = -9223372036.
Proof. reflexivity. Qed.

Lemma seconds_max : duration_cast_seconds time_point_max = 9223372036.
Proof. reflexivity. Qed.

(** A date in range converts to ticks without overflow. *)
Lemma time_point_of_seconds_exact date :
  date_in_range date -> time_point_of_seconds date = date * ticks_per_second.
Proof.
  unfold date_in_range. rewrite seconds_min, seconds_max. intros H.
  unfold time_point_of_seconds, wrap_int64, ticks_per_second.
  rewrite Z.mod_small; lia.
Qed.

Lemma mwc_timestamp_in_range w date price e k :
  observation date price e -> date_in_range date ->
  mwc_timestamp w e k
  = (Return (fst (clamp w (date * ticks_per_second) k)),
     snd (clamp w (date * ticks_per_second) k)).
Proof.
  intros (_ & Hd & _) R. unfold mwc_timestamp.
  rewrite Hd. simpl value_of.
  rewrite (bind_Return _ _ k date k) by reflexivity.
  rewrite time_point_of_seconds_exact by assumption.
  destruct R as [R1 R2].
  rewrite (bind_Return _ _ k tt k).
  2:{ replace (date <? duration_cast_seconds time_point_min) with false by lia.
      replace (date >? duration_cast_seconds time_point_max) with false by lia.
      reflexivity. }
  unfold bind, now, clamp, ret.
  destruct (date * ticks_per_second >? system_clock_now w k); reflexivity.
Qed.

Lemma mwc_timestamp_out_of_range w date price e k :
  observation date price e -> ~ date_in_range date ->
  mwc_timestamp w e k = (Throw (runtime_error "TradeOgre date is invalid"), k).
Proof.
  intros (_ & Hd & _) R. unfold mwc_timestamp.
  rewrite Hd. simpl value_of.
  rewrite (bind_Return _ _ k date k) by reflexivity.
  rewrite (bind_Throw _ _ k (runtime_error "TradeOgre date is invalid") k);
    [reflexivity|].
  unfold date_in_range in R.
  destruct (Z.ltb_spec date (duration_cast_seconds time_point_min)); [reflexivity|].
  destruct (Z.gtb_spec date (duration_cast_seconds time_point_max)); [reflexivity|].
  lia.
Qed.

(** ** Decimal digits *)

Lemma digits_fold_app ds es a :
  digits_fold (ds ++ es) a = digits_fold es (digits_fold ds a).
Proof. unfold digits_fold. apply fold_left_app. Qed.

Lemma digits_fold_shift ds :
  forall a, digits_fold ds a = a * 10 ^ strlen ds + digits_fold ds 0.
Proof.
  induction ds as [|c t IH]; intros a.
  - simpl. unfold strlen. simpl. lia.
  - change (digits_fold (c :: t) a) with (digits_fold t (10 * a + digit_value c)).
    change (digits_fold (c :: t) 0) with (digits_fold t (10 * 0 + digit_value c)).
    rewrite (IH (10 * a + digit_value c)), (IH (10 * 0 + digit_value c)).
    replace (strlen (c :: t)) with (Z.succ (strlen t))
      by (unfold strlen; simpl List.length; lia).
    rewrite Z.pow_succ_r by apply strlen_nonneg. lia.
Qed.

Lemma read_digits_fold ds :
  forall a, forallb isdigit ds = true -> read_digits ds a = Some (digits_fold ds a).
Proof.
  induction ds as [|c t IH]; intros a H; [reflexivity|].
  simpl in H. apply andb_true_iff in H as [Hc Ht].
  simpl. rewrite Hc. now apply IH.
Qed.

(** The digits [std::to_string] writes in front of [acc]. *)
Lemma to_string_loop_spec fuel :
  forall n acc,
    0 <= n < 2 ^ Z.of_nat fuel -> (0 < fuel)%nat ->
    exists ds,
      to_string_loop fuel n acc = ds ++ acc
      /\ ds <> [] /\ forallb isdigit ds = true /\ digits_fold ds 0 = n.
Proof.
  induction fuel as [|fuel IH]; intros n acc Hn Hf; [lia|].
  simpl to_string_loop.
  pose proof (Z.mod_pos_bound n 10 ltac:(lia)) as B.
  destruct (digit_char_spec (n mod 10) ltac:(lia)) as [D V].
  pose proof (Z.div_mod n 10 ltac:(lia)) as E.
  destruct (Z.eqb_spec (n / 10) 0) as [Z0|NZ].
  - exists [digit_char (n mod 10)]. repeat split.
    + discriminate.
    + simpl. now rewrite D.
    + unfold digits_fold. cbn [fold_left]. rewrite V. lia.
  - assert (Hq : 0 <= n / 10 < 2 ^ Z.of_nat fuel).
    { split; [apply Z.div_pos; lia|].
      rewrite Nat2Z.inj_succ, Z.pow_succ_r in Hn by lia.
      apply Z.div_lt_upper_bound; lia. }
    assert (Hf' : (0 < fuel)%nat).
    { destruct fuel; [|lia]. simpl in Hq. lia. }
    destruct (IH (n / 10) (digit_char (n mod 10) :: acc) Hq Hf')
      as (ds & E1 & E2 & E3 & E4).
    exists (ds ++ [digit_char (n mod 10)]). repeat split.
    + rewrite E1, <- app_assoc. reflexivity.
    + destruct ds; discriminate.
    + rewrite forallb_app, E3. simpl. now rewrite D.
    + rewrite digits_fold_app, E4. unfold digits_fold. cbn [fold_left]. rewrite V. lia.
Qed.

Lemma to_string_spec n :
  0 <= n ->
  exists ds, to_string n = ds /\ ds <> [] /\ forallb isdigit ds = true
             /\ digits_fold ds 0 = n.
Proof.
  intros Hn. unfold to_string.
  destruct (to_string_loop_spec (S (Z.to_nat (Z.log2 n))) n []) as (ds & E & P).
  - split; [lia|]. rewrite Nat2Z.inj_succ, Z2Nat.id by apply Z.log2_nonneg.
    destruct (Z.eq_dec n 0) as [->|]; [reflexivity|].
    apply Z.log2_spec. lia.
  - lia.
  - exists ds. rewrite app_nil_r in E. auto.
Qed.

Lemma low_digits_spec k :
  forall n, 0 <= n ->
    List.length (low_digits k n) = k
    /\ forallb isdigit (low_digits k n) = true
    /\ digits_fold (low_digits k n) 0 = n mod 10 ^ Z.of_nat k.
Proof.
  induction k as [|k IH]; intros n Hn.
  - cbn [low_digits List.length forallb]. repeat split.
    unfold digits_fold. cbn [fold_left Z.of_nat]. now rewrite Z.pow_0_r, Z.mod_1_r.
  - simpl low_digits.
    pose proof (Z.mod_pos_bound n 10 ltac:(lia)) as B.
    destruct (digit_char_spec (n mod 10) ltac:(lia)) as [D V].
    destruct (IH (n / 10) ltac:(apply Z.div_pos; lia)) as (L & F & G).
    repeat split.
    + rewrite length_app, L. simpl. lia.
    + rewrite forallb_app, F. simpl. now rewrite D.
    + rewrite digits_fold_app, G. unfold digits_fold. cbn [fold_left]. rewrite V.
      rewrite Nat2Z.inj_succ, Z.pow_succ_r by lia.
      pose proof (Z.pow_pos_nonneg 10 (Z.of_nat k) ltac:(lia) ltac:(lia)).
      rewrite Z.rem_mul_r by lia. lia.
Qed.




(** ** Formatting *)

Lemma firstn_length_app {A : Type} (l r : list A) :
  firstn (List.length l) (l ++ r) = l.
Proof. induction l; simpl; [now destruct r|now f_equal]. Qed.

Lemma skipn_length_app {A : Type} (l r : list A) :
  skipn (List.length l) (l ++ r) = r.
Proof. induction l; simpl; auto. Qed.

(** The format string built from [precision] is read back as it. *)
Lemma format_precision_to_string p :
  0 <= p -> format_precision (str "%." ++ to_string p ++ str "R*F") = Some p.
Proof.
  intros Hp. destruct (to_string_spec p Hp) as (ds & E & N & D & V).
  rewrite E. cbn [str list_ascii_of_string app format_precision].
  replace (List.length (ds ++ ["R"; "*"; "F"]%char) - 3)%nat with (List.length ds)
    by (rewrite length_app; simpl; lia).
  rewrite skipn_length_app, firstn_length_app.
  destruct (list_eq_dec ascii_dec ["R"; "*"; "F"]%char ["R"; "*"; "F"]%char)
    as [_|C]; [|congruence].
  destruct ds as [|c t]; [congruence|].
  rewrite read_digits_fold by assumption. now rewrite V.
Qed.

Lemma scaled_rndn_nonneg p m e :
  0 <= p -> 0 < m -> 0 <= scaled_rndn p (mpfr_reg m e).
Proof.
  intros Hp Hm. unfold scaled_rndn.
  assert (0 < 10 ^ p) by (apply Z.pow_pos_nonneg; lia).
  assert (0 < 2 ^ Z.max 0 e) by (apply Z.pow_pos_nonneg; lia).
  assert (0 < 2 ^ Z.max 0 (- e)) by (apply Z.pow_pos_nonneg; lia).
  pose proof (rndn_div_lower (m * 10 ^ p * 2 ^ Z.max 0 e) (2 ^ Z.max 0 (- e))
                ltac:(nia) ltac:(lia)) as L.
  assert (0 <= (m * 10 ^ p * 2 ^ Z.max 0 e) / 2 ^ Z.max 0 (- e))
    by (apply Z.div_pos; nia).
  lia.
Qed.

(** The shape of the text of [%.pR*F]: digits, then for [p] above zero a
    point and [p] digits; read without its point it is the value times
    [10 ^ p], rounded. *)
Lemma format_F_shape p x m e :
  0 <= p -> mpfr_val x = mpfr_reg m e -> 0 < m ->
  exists ip fp,
    format_F p x = ip ++ (if p =? 0 then [] else "."%char :: fp)
    /\ ip <> [] /\ forallb isdigit ip = true
    /\ forallb isdigit fp = true /\ strlen fp = p
    /\ digits_fold fp (digits_fold ip 0) = scaled_rndn p (mpfr_reg m e).
Proof.
  intros Hp Hx Hm. unfold format_F. rewrite Hx.
  set (n := scaled_rndn p (mpfr_reg m e)).
  assert (Hn : 0 <= n) by now apply scaled_rndn_nonneg.
  assert (P10 : 0 < 10 ^ p) by (apply Z.pow_pos_nonneg; lia).
  destruct (to_string_spec (n / 10 ^ p) ltac:(apply Z.div_pos; lia))
    as (ip & E & N & D & V).
  destruct (low_digits_spec (Z.to_nat p) n Hn) as (L & F & G).
  rewrite Z2Nat.id in G by assumption.
  exists ip, (low_digits (Z.to_nat p) n). rewrite E.
  repeat split; auto.
  - unfold strlen. rewrite L. lia.
  - rewrite digits_fold_shift, G, V.
    replace (strlen (low_digits (Z.to_nat p) n)) with p
      by (unfold strlen; rewrite L; lia).
    pose proof (Z.div_mod n (10 ^ p) ltac:(lia)). lia.
Qed.

(** ** Trailing zeros *)

Lemma back_is_nil c : back_is [] c = false.
Proof. reflexivity. Qed.

Lemma back_is_last s x c : back_is (s ++ [x]) c = Ascii.eqb x c.
Proof. unfold back_is, back. now rewrite rev_unit. Qed.

Lemma back_is_cons x t c : t <> [] -> back_is (x :: t) c = back_is t c.
Proof.
  intros H. destruct (exists_last H) as (t' & y & ->).
  now rewrite app_comm_cons, !back_is_last.
Qed.

Lemma back_is_app s t c : t <> [] -> back_is (s ++ t) c = back_is t c.
Proof.
  intros H. induction s as [|x s IH]; [reflexivity|].
  simpl. rewrite back_is_cons; [exact IH|]. destruct s; [assumption|discriminate].
Qed.

Lemma back_is_forallb (P : ascii -> bool) s c :
  forallb P s = true -> P c = false -> back_is s c = false.
Proof.
  intros H Hc. destruct s as [|x t]; [reflexivity|].
  destruct (@exists_last _ (x :: t) ltac:(discriminate)) as (t' & y & E).
  rewrite E in *. rewrite back_is_last.
  rewrite forallb_app in H. apply andb_true_iff in H as [_ H]. simpl in H.
  rewrite andb_true_r in H.
  destruct (Ascii.eqb_spec y c) as [->|]; [congruence|reflexivity].
Qed.

Lemma strip_trailing_keeps c s : back_is s c = false -> strip_trailing c s = s.
Proof.
  induction s as [|x t IH]; intros H; [reflexivity|].
  destruct t as [|y t'].
  - change [x] with ([] ++ [x]) in H. rewrite back_is_last in H.
    simpl. now rewrite H.
  - rewrite back_is_cons in H by discriminate.
    cbn [strip_trailing]. cbn [strip_trailing] in IH. rewrite (IH H). reflexivity.
Qed.


Lemma strip_trailing_after c l x r :
  Ascii.eqb x c = false ->
  strip_trailing c (l ++ x :: r) = l ++ x :: strip_trailing c r.
Proof.
  intros Hx. induction l as [|a l IH].
  - cbn [app strip_trailing]. rewrite Hx. now destruct (strip_trailing c r).
  - cbn [app strip_trailing]. rewrite IH. now destruct l.
Qed.

Lemma strip_trailing_forallb (P : ascii -> bool) c s :
  forallb P s = true -> forallb P (strip_trailing c s) = true.
Proof.
  induction s as [|x t IH]; intros H; [reflexivity|].
  simpl in H. apply andb_true_iff in H as [Hx Ht].
  cbn [strip_trailing]. destruct (strip_trailing c t) as [|y t'].
  - destruct (Ascii.eqb x c); simpl; [reflexivity|now rewrite Hx].
  - specialize (IH Ht). cbn [forallb] in *. now rewrite Hx.
Qed.

(** [find_last_not_of] cuts exactly the trailing run. *)
Lemma find_last_not_of_from_spec c s :
  match find_last_not_of_from s c with
  | Some i => 0 <= i < strlen s /\ firstn (Z.to_nat (i + 1)) s = strip_trailing c s
  | None => strip_trailing c s = []
  end.
Proof.
  induction s as [|x t IH]; [reflexivity|].
  cbn [find_last_not_of_from strip_trailing].
  replace (strlen (x :: t)) with (1 + strlen t)
    by (unfold strlen; cbn [List.length]; lia).
  pose proof (strlen_nonneg t) as Ht.
  destruct (find_last_not_of_from t c) as [i|].
  - destruct IH as [B E]. split; [lia|].
    replace (Z.to_nat (i + 1 + 1)) with (S (Z.to_nat (i + 1))) by lia.
    cbn [firstn]. rewrite E.
    destruct (strip_trailing c t) eqn:S0; [|reflexivity].
    exfalso. replace (Z.to_nat (i + 1)) with (S (Z.to_nat i)) in E by lia.
    destruct t; [unfold strlen in B; simpl in B; lia|discriminate E].
  - rewrite IH. destruct (Ascii.eqb x c); [reflexivity|].
    split; [lia|reflexivity].
Qed.

Lemma substr0_find_last_not_of c s :
  strlen s < 2 ^ 64 ->
  substr0 s (wrap_size_t (find_last_not_of s c + 1)) = strip_trailing c s.
Proof.
  intros H. unfold substr0, find_last_not_of, wrap_size_t.
  pose proof (find_last_not_of_from_spec c s) as S.
  destruct (find_last_not_of_from s c) as [i|].
  - destruct S as [B E]. rewrite Z.mod_small by lia. exact E.
  - rewrite S. reflexivity.
Qed.

(** The canonicalisation block removes the trailing zeros of the whole
    string, then a trailing point. *)
Lemma canonicalize_strip s :
  strlen s < 2 ^ 64 -> s <> str "0" ->
  canonicalize s
  = let t := strip_trailing "0" s in if back_is t "." then pop_back t else t.
Proof.
  intros H N. unfold canonicalize.
  destruct (list_eq_dec ascii_dec s (str "0")); [contradiction|].
  destruct (back_is s "0") eqn:B.
  - now rewrite substr0_find_last_not_of.
  - now rewrite strip_trailing_keeps.
Qed.



(** ** The stages of [getNewPrice] *)

Lemma perform_requests_delivered w k :
  delivered w -> perform_requests w k = (Return tt, k).
Proof.
  intros (H1 & H2 & H3 & H4 & H5). unfold perform_requests.
  rewrite H1, H2, H3.
  rewrite (proj2 (strlen_zero _) H4), (proj2 (strlen_zero _) H5).
  reflexivity.
Qed.

Lemma array_size_positive a : a <> [] -> (array_size a =? 0) = false.
Proof.
  intros H. unfold array_size. apply Z.eqb_neq.
  destruct a; [contradiction|]. simpl List.length. lia.
Qed.

Lemma array_at_not_nil a i e : array_at a i = sj_value e -> a <> [].
Proof. destruct a; [discriminate|discriminate]. Qed.

(** The MWC stage hands over the element at [size() - 1] when that is an
    observation. *)
Lemma mwc_most_recent_price_observation parse w k a e date price :
  parse (mwcResponse w) = sj_value (json_array a) ->
  array_at a (wrap_size_t (array_size a - 1)) = sj_value e ->
  observation date price e ->
  mwc_most_recent_price parse w k = (Return e, k).
Proof.
  intros Hp Ha (O1 & O2 & O3). unfold mwc_most_recent_price.
  rewrite Hp. cbn [value_of is_array negb get_array element_at].
  rewrite (bind_Return _ _ k (json_array a) k) by reflexivity.
  cbn [value_of is_array negb get_array element_at].
  rewrite (bind_Return _ _ k false k).
  2:{ rewrite (bind_Return _ _ k a k) by reflexivity.
      unfold ret. now rewrite (array_size_positive a (array_at_not_nil _ _ _ Ha)). }
  rewrite (bind_Return _ _ k tt k) by reflexivity.
  rewrite (bind_Return _ _ k a k) by reflexivity.
  rewrite Ha. rewrite (bind_Return _ _ k e k) by reflexivity.
  unfold is_int64, is_string. rewrite O1, O2, O3. reflexivity.
Qed.

Lemma btc_response_ticker parse w k e price :
  parse (btcResponse w) = sj_value e -> ticker true price e ->
  btc_response parse w k = (Return e, k).
Proof.
  intros Hp (T1 & T2 & T3). unfold btc_response.
  rewrite Hp. rewrite (bind_Return _ _ k e k) by reflexivity.
  unfold is_bool, is_string. rewrite T1, T2, T3. reflexivity.
Qed.

Lemma btc_response_unsuccessful parse w k e price :
  parse (btcResponse w) = sj_value e -> ticker false price e ->
  btc_response parse w k
  = (Throw (runtime_error "TradeOgre BTC response is invalid"), k).
Proof.
  intros Hp (T1 & T2 & T3). unfold btc_response.
  rewrite Hp. rewrite (bind_Return _ _ k e k) by reflexivity.
  unfold is_bool, is_string. rewrite T1, T2. reflexivity.
Qed.

(** The last stage on two numbers above zero: the canonicalised text, or
    the size failure when the text is longer than [INT_MAX]. *)
Lemma multiply_and_format_positive a b precision k m1 e1 m2 e2 :
  0 < mpfr_prec a ->
  mpfr_val a = mpfr_reg m1 e1 -> 0 < m1 ->
  mpfr_val b = mpfr_reg m2 e2 -> 0 < m2 ->
  0 <= precision ->
  multiply_and_format a b precision k
  = (let text := format_F precision (mpfr_mul a a b) in
     if strlen text <=? INT_MAX then Return (canonicalize text)
     else Throw (runtime_error "Getting TradeOgre result size failed"), k).
Proof.
  intros Hp Ha H1 Hb H2 Hq. unfold multiply_and_format.
  destruct (mpfr_mul_positive a a b m1 e1 m2 e2 Hp Ha H1 Hb H2) as (m & e & E & Pm & _).
  set (x := mpfr_mul a a b) in *.
  assert (S1 : mpfr_sgn x = 1).
  { unfold mpfr_sgn. rewrite E. destruct m; simpl; lia. }
  rewrite S1. rewrite (bind_Return _ _ k tt k) by reflexivity.
  unfold mpfr_snprintf_size, mpfr_sprintf.
  rewrite format_precision_to_string by assumption.
  destruct (format_F_shape precision x m e Hq E Pm) as (ip & fp & F & N & _).
  assert (L : 0 < strlen (format_F precision x)).
  { rewrite F, strlen_app. pose proof (strlen_nonneg (if precision =? 0 then [] else "."%char :: fp)).
    destruct ip; [congruence|]. unfold strlen at 1. simpl List.length. lia. }
  cbv zeta.
  destruct (Z.leb_spec (strlen (format_F precision x)) INT_MAX) as [C|C].
  - cbn [fst]. rewrite (bind_Return _ _ k tt k).
    2:{ destruct (Z.leb_spec (strlen (format_F precision x)) 0); [lia|reflexivity]. }
    rewrite Z.eqb_refl. reflexivity.
  - reflexivity.
Qed.



Lemma update_precision_nonneg p s : 0 <= p -> 0 <= update_precision p s.
Proof.
  intros H. unfold update_precision, wrap_uint32.
  destruct (strchr s "."); [|assumption].
  apply Z.mod_pos_bound. lia.
Qed.


(** ** Runs of [getNewPrice] *)

Ltac run_to_mwc_price Hd Hp Ha Ho Hr :=
  unfold getNewPrice;
  rewrite (bind_Return _ _ _ _ _ (perform_requests_delivered _ _ Hd));
  rewrite (bind_Return _ _ _ _ _
             (mwc_most_recent_price_observation _ _ _ _ _ _ _ Hp Ha Ho));
  rewrite (bind_Return _ _ _ _ _ (mwc_timestamp_in_range _ _ _ _ _ Ho Hr));
  rewrite (proj2 (proj2 Ho)).

Section Runs.

Variable parse : list ascii -> simdjson_result element.
Variable w : World.
Variable k : nat.
Variable a : list element.
Variable eA : element.
Variable date : Z.
Variable pa : list ascii.

Hypothesis Hd : delivered w.
Hypothesis Hp : parse (mwcResponse w) = sj_value (json_array a).
Hypothesis Ha : array_at a (wrap_size_t (array_size a - 1)) = sj_value eA.
Hypothesis Ho : observation date pa eA.


Hypothesis Hr : date_in_range date.

(** An MWC price the price block refuses. *)
Lemma run_mwc_price_refused :
  forallb digit_or_point (c_str pa) = false \/ positive_decimal (c_str pa) = false ->
  getNewPrice parse w k
  = (Throw (runtime_error "TradeOgre MWC price is invalid"),
     snd (clamp w (date * ticks_per_second) k)).
Proof.
  intros H. run_to_mwc_price Hd Hp Ha Ho Hr.
  apply bind_Throw.
  destruct (forallb digit_or_point (c_str pa)) eqn:Hc.
  - destruct H as [H|H]; [discriminate|]. now apply read_price_not_positive.
  - now apply read_price_bad_char.
Qed.

Hypothesis Hpa : positive_decimal (c_str pa) = true.

Variable eB : element.
Variable pb : list ascii.

Hypothesis Hq : parse (btcResponse w) = sj_value eB.

(** An unsuccessful ticker stops the run after the clock was read. *)
Lemma run_btc_unsuccessful :
  ticker false pb eB ->
  getNewPrice parse w k
  = (Throw (runtime_error "TradeOgre BTC response is invalid"),
     snd (clamp w (date * ticks_per_second) k)).
Proof.
  intros Ht. run_to_mwc_price Hd Hp Ha Ho Hr.
  rewrite (bind_Return _ _ _ _ _
             (read_price_positive pa _ (mpfr_init2 PRECISION) _ _ eq_refl Hpa)).
  now rewrite (bind_Throw _ _ _ _ _ (btc_response_unsuccessful _ _ _ _ _ Hq Ht)).
Qed.

Hypothesis Ht : ticker true pb eB.

(** A BTC price the price block refuses. *)
Lemma run_btc_price_refused :
  forallb digit_or_point (c_str pb) = false \/ positive_decimal (c_str pb) = false ->
  getNewPrice parse w k
  = (Throw (runtime_error "TradeOgre BTC price is invalid"),
     snd (clamp w (date * ticks_per_second) k)).
Proof.
  intros H. run_to_mwc_price Hd Hp Ha Ho Hr.
  rewrite (bind_Return _ _ _ _ _
             (read_price_positive pa _ (mpfr_init2 PRECISION) _ _ eq_refl Hpa)).
  rewrite (bind_Return _ _ _ _ _ (btc_response_ticker _ _ _ _ _ Hq Ht)).
  rewrite (proj2 (proj2 Ht)).
  apply bind_Throw.
  destruct (forallb digit_or_point (c_str pb)) eqn:Hc.
  - destruct H as [H|H]; [discriminate|]. now apply read_price_not_positive.
  - now apply read_price_bad_char.
Qed.

Hypothesis Hpb : positive_decimal (c_str pb) = true.

(** Two valid feeds: the run returns the clamped time stamp and the
    canonicalised text, unless the text is longer than [INT_MAX]. *)
Lemma run_valid :
  getNewPrice parse w k
  = (if strlen (rendered (c_str pa) (c_str pb)) <=? INT_MAX
     then Return (fst (clamp w (date * ticks_per_second) k),
                  canonicalize (rendered (c_str pa) (c_str pb)))
     else Throw (runtime_error "Getting TradeOgre result size failed"),
     snd (clamp w (date * ticks_per_second) k)).
Proof.
  run_to_mwc_price Hd Hp Ha Ho Hr.
  rewrite (bind_Return _ _ _ _ _
             (read_price_positive pa _ (mpfr_init2 PRECISION) _ _ eq_refl Hpa)).
  rewrite (bind_Return _ _ _ _ _ (btc_response_ticker _ _ _ _ _ Hq Ht)).
  rewrite (proj2 (proj2 Ht)).
  rewrite (bind_Return _ _ _ _ _
             (read_price_positive pb _ (mpfr_init2 PRECISION) _ _ eq_refl Hpb)).
  destruct (price_value_positive _ Hpa) as (m1 & e1 & V1 & P1 & Q1).
  destruct (price_value_positive _ Hpb) as (m2 & e2 & V2 & P2 & Q2).
  fold (price_value (c_str pa)). fold (price_value (c_str pb)).
  fold (total_precision (c_str pa) (c_str pb)).
  assert (Hn : 0 <= total_precision (c_str pa) (c_str pb))
    by (apply update_precision_nonneg, update_precision_nonneg; lia).
  assert (H256 : 0 < mpfr_prec (price_value (c_str pa))) by (rewrite Q1; lia).
  unfold bind.
  rewrite (multiply_and_format_positive _ _ _ _ m1 e1 m2 e2 H256 V1 P1 V2 P2 Hn).
  cbv zeta. fold (price_product (c_str pa) (c_str pb)).
  fold (rendered (c_str pa) (c_str pb)).
  destruct (strlen (rendered (c_str pa) (c_str pb)) <=? INT_MAX); reflexivity.
Qed.

End Runs.

(** ** [back()] is called on non-empty strings only

    [result.back()] is undefined on an empty string.  The first call is on
    the formatted text, the second on what the removal of zeros leaves of
    it; neither is empty. *)

Lemma nonzero_digit_char d : 1 <= d <= 9 -> nonzero_digit (digit_char d) = true.
Proof.
  intros H.
  assert (E : d = 1 \/ d = 2 \/ d = 3 \/ d = 4 \/ d = 5 \/ d = 6
              \/ d = 7 \/ d = 8 \/ d = 9) by lia.
  repeat (destruct E as [-> | E]; [reflexivity|]).
  subst d. reflexivity.
Qed.

Lemma to_string_loop_leading fuel :
  forall n acc,
    0 < n < 2 ^ Z.of_nat fuel ->
    exists c t, to_string_loop fuel n acc = c :: t /\ nonzero_digit c = true.
Proof.
  induction fuel as [|fuel IH]; intros n acc Hn.
  - simpl in Hn. lia.
  - simpl to_string_loop.
    pose proof (Z.mod_pos_bound n 10 ltac:(lia)) as B.
    pose proof (Z.div_mod n 10 ltac:(lia)) as E.
    destruct (Z.eqb_spec (n / 10) 0) as [Z0|NZ].
    + exists (digit_char (n mod 10)), acc. split; [reflexivity|].
      apply nonzero_digit_char. lia.
    + apply IH. split.
      * assert (0 <= n / 10) by (apply Z.div_pos; lia). lia.
      * rewrite Nat2Z.inj_succ, Z.pow_succ_r in Hn by lia.
        apply Z.div_lt_upper_bound; lia.
Qed.

Lemma to_string_leading n :
  0 < n -> exists c t, to_string n = c :: t /\ nonzero_digit c = true.
Proof.
  intros Hn. unfold to_string. apply to_string_loop_leading.
  split; [assumption|].
  rewrite Nat2Z.inj_succ, Z2Nat.id by apply Z.log2_nonneg.
  apply Z.log2_spec. assumption.
Qed.

Lemma strip_trailing_head c x t :
  Ascii.eqb x c = false -> strip_trailing c (x :: t) <> [].
Proof.
  intros H. cbn [strip_trailing]. rewrite H.
  destruct (strip_trailing c t); discriminate.
Qed.

Lemma formatted_text_back_defined p x m e :
  0 <= p -> mpfr_val x = mpfr_reg m e -> 0 < m ->
  format_F p x <> []
  /\ (format_F p x <> str "0" -> strip_trailing "0" (format_F p x) <> []).
Proof.
  intros Hp Hx Hm.
  assert (Hn : 0 <= scaled_rndn p (mpfr_reg m e)) by now apply scaled_rndn_nonneg.
  assert (P10 : 0 < 10 ^ p) by (apply Z.pow_pos_nonneg; lia).
  unfold format_F. rewrite Hx.
  set (n := scaled_rndn p (mpfr_reg m e)) in *.
  destruct (to_string_spec (n / 10 ^ p) ltac:(apply Z.div_pos; lia))
    as (ip & E & N & D & V).
  rewrite E. split; [destruct ip; [congruence|discriminate]|].
  destruct (Z.eqb_spec p 0) as [P0|P0].
  - rewrite app_nil_r. intros H0.
    assert (Hq : 0 < n / 10 ^ p).
    { assert (0 <= n / 10 ^ p) by (apply Z.div_pos; lia).
      destruct (Z.eq_dec (n / 10 ^ p) 0) as [Z0|]; [|lia].
      exfalso. apply H0. rewrite <- E, Z0. reflexivity. }
    destruct (to_string_leading _ Hq) as (c & t & Ec & Nc).
    rewrite E in Ec. rewrite Ec. apply strip_trailing_head.
    unfold nonzero_digit in Nc. apply andb_true_iff in Nc as [_ Nc].
    now apply negb_true_iff in Nc.
  - intros _. rewrite strip_trailing_after by reflexivity.
    destruct ip; discriminate.
Qed.

(** * The claims *)

(** ** C1 *)

(** C1, as stated, fails: on the two responses of the example, read at a
    time after the date, [getNewPrice] does not return the price
    ["802.40617"]. *)
Lemma example_1_price_is_not_802_40617 :
  fst (getNewPrice json_parse
         (world (json_text "[{'date':1700000000,'price':'0.01234'}]")
                (json_text "{'success':true,'price':'65000.50'}")
                clock_2027) 0%nat)
  <> Return (1700000000 * ticks_per_second, str "802.40617").
Proof. vm_compute. discriminate. Qed.

(** C1, amended: when feed A parses to the array
    [[{"date":1700000000,"price":"0.01234"}]] and feed B to the object
    [{"success":true,"price":"65000.50"}], and the clock does not stand
    before the date, [precision] is 7, the product is rendered as
    ["802.1061700"], and [getNewPrice] returns the price ["802.10617"]
    with the time stamp of 1700000000 seconds after the epoch, after one
    read of the clock. *)
Theorem example_1 parse w k :
  delivered w ->
  parse (mwcResponse w) = sj_value (json_array [observation_object 1700000000 "0.01234"]) ->
  parse (btcResponse w) = sj_value (ticker_object true "65000.50") ->
  1700000000 * ticks_per_second <= system_clock_now w k ->
  total_precision (str "0.01234") (str "65000.50") = 7
  /\ rendered (str "0.01234") (str "65000.50") = str "802.1061700"
  /\ getNewPrice parse w k
     = (Return (1700000000 * ticks_per_second, str "802.10617"), S k).
Proof.
  intros Hd Hp Hq Hnow.
  split; [reflexivity|]. split; [vm_compute; reflexivity|].
  assert (Ho : observation 1700000000 (str "0.01234")
                 (observation_object 1700000000 "0.01234")) by (repeat split).
  assert (Ht : ticker true (str "65000.50") (ticker_object true "65000.50"))
    by (repeat split).
  assert (Hr : date_in_range 1700000000) by (split; vm_compute; congruence).
  rewrite (run_valid parse w k _ _ _ _ Hd Hp eq_refl Ho Hr eq_refl _ _ Hq Ht eq_refl).
  replace (rendered (c_str (str "0.01234")) (c_str (str "65000.50")))
    with (str "802.1061700") by (vm_compute; reflexivity).
  unfold clamp.
  destruct (Z.gtb_spec (1700000000 * ticks_per_second) (system_clock_now w k));
    [lia|].
  reflexivity.
Qed.

Lemma example_1_witness :
  getNewPrice json_parse
    (world (json_text "[{'date':1700000000,'price':'0.01234'}]")
           (json_text "{'success':true,'price':'65000.50'}")
           clock_2027) 0%nat
  = (Return (1700000000 * ticks_per_second, str "802.10617"), 1%nat).
Proof.
  apply (example_1 json_parse
           (world (json_text "[{'date':1700000000,'price':'0.01234'}]")
                  (json_text "{'success':true,'price':'65000.50'}")
                  clock_2027) 0%nat).
  - repeat split; discriminate.
  - vm_compute. reflexivity.
  - vm_compute. reflexivity.
  - vm_compute. discriminate.
Defined.

(** ** C2 *)

(** C2 fails on the code: without a point in the text, the zeros removed
    are integer digits.  ["100"] becomes ["1"], and so the prices ["10"]
    and ["10"] (no fractional digit, [precision] 0, text ["100"]) give
    the price ["1"]. *)
Theorem canonicalize_removes_integer_zeros :
  canonicalize (str "100") = str "1"
  /\ total_precision (str "10") (str "10") = 0
  /\ rendered (str "10") (str "10") = str "100"
  /\ getNewPrice json_parse
       (world (json_text "[{'date':1700000000,'price':'10'}]")
              (json_text "{'success':true,'price':'10'}")
              clock_2027) 0%nat
     = (Return (1700000000 * ticks_per_second, str "1"), 1%nat).
Proof. repeat split; vm_compute; reflexivity. Qed.

(** ** C7 *)

(** C7 fails on the code: ["10"] is canonical, and the canonicalisation
    block turns it into ["1"]; run on its own output for the text
    ["10.0"], it changes that output. *)
Theorem canonicalize_not_idempotent :
  canonical (str "10") = true
  /\ canonicalize (str "10") = str "1"
  /\ canonicalize (str "10.0") = str "10"
  /\ canonicalize (canonicalize (str "10.0")) <> canonicalize (str "10.0").
Proof. repeat split; vm_compute; congruence. Qed.

(** ** C3 *)


Lemma not_decimal_not_positive s :
  decimal_string s = false -> positive_decimal s = false.
Proof. intros H. unfold positive_decimal. now rewrite H. Qed.








(** ** C10 *)

(** C10 fails on the code: the price ["1\u0000x"] of feed A, the string
    of ['1'], a NUL and ['x'], is not a decimal string, and it holds a
    character that is neither a digit nor a point.  The loop of lines
    105-112 walks the C string [get_c_str] gives and stops at the NUL, so
    it passes; [mpfr_set_str] reads ["1"]; and with the price ["3"] of
    feed B [getNewPrice] returns the price ["3"]. *)
Theorem price_is_checked_up_to_nul_only :
  let price := str "1" ++ NUL :: str "x" in
  let e := json_object [(str "date", json_int64 1700000000);
                        (str "price", json_string price)] in
  let w := world (json_text "[{'date':1700000000,'price':'1\u0000x'}]")
                 (json_text "{'success':true,'price':'3'}") clock_2027 in
  json_parse (mwcResponse w) = sj_value (json_array [e])
  /\ forallb digit_or_point price = false
  /\ decimal_string price = false
  /\ forward get_c_str (at_key e "price") = sj_value (str "1")
  /\ check_price_chars (str "1") "TradeOgre MWC price is invalid" 1%nat
     = (Return tt, 1%nat)
  /\ fst (mpfr_set_str (mpfr_init2 PRECISION) (str "1")) = 0
  /\ getNewPrice json_parse w 0%nat
     = (Return (1700000000 * ticks_per_second, str "3"), 1%nat).
Proof. repeat split; vm_compute; reflexivity. Qed.

(** ** C4 *)




(** ** C5 *)

(** C5: with a [date] in range (and two valid feeds, so that a result is
    returned), the time stamp returned is [date] seconds after the epoch,
    unless that is strictly later than the clock read for the comparison;
    then it is the clock, read again for the replacement.  Either way the
    time stamp is not later than the last reading of the clock that
    [getNewPrice] took. *)
Theorem timestamp_clamp parse w k a eA date pa eB pb :
  delivered w ->
  parse (mwcResponse w) = sj_value (json_array a) ->
  array_at a (wrap_size_t (array_size a - 1)) = sj_value eA ->
  observation date pa eA ->
  date_in_range date ->
  positive_decimal (c_str pa) = true ->
  parse (btcResponse w) = sj_value eB ->
  ticker true pb eB ->
  positive_decimal (c_str pb) = true ->
  strlen (rendered (c_str pa) (c_str pb)) <= INT_MAX ->
  exists timestamp reads,
    getNewPrice parse w k
    = (Return (timestamp, canonicalize (rendered (c_str pa) (c_str pb))), reads)
    /\ time_point_of_seconds date = date * ticks_per_second
    /\ (date * ticks_per_second <= system_clock_now w k ->
        timestamp = date * ticks_per_second /\ reads = S k)
    /\ (date * ticks_per_second > system_clock_now w k ->
        timestamp = system_clock_now w (S k) /\ reads = S (S k))
    /\ timestamp <= system_clock_now w (Nat.pred reads).
Proof.
  intros Hd Hp Ha Ho Hr Hpa Hq Ht Hpb Hs.
  exists (fst (clamp w (date * ticks_per_second) k)),
         (snd (clamp w (date * ticks_per_second) k)).
  split.
  - rewrite (run_valid parse w k a eA date pa Hd Hp Ha Ho Hr Hpa eB pb Hq Ht Hpb).
    destruct (Z.leb_spec (strlen (rendered (c_str pa) (c_str pb))) INT_MAX);
      [reflexivity|lia].
  - split; [now apply time_point_of_seconds_exact|].
    unfold clamp.
    destruct (Z.gtb_spec (date * ticks_per_second) (system_clock_now w k));
      cbn [fst snd Nat.pred]; repeat split; intros; lia.
Qed.

Lemma timestamp_clamp_witness :
  exists timestamp reads,
    getNewPrice json_parse
      (world (json_text "[{'date':1900000000,'price':'0.01234'}]")
             (json_text "{'success':true,'price':'65000.50'}")
             clock_2027) 0%nat
    = (Return (timestamp, str "802.10617"), reads)
    /\ timestamp = 1800000000 * ticks_per_second /\ reads = 2%nat.
Proof.
  destruct (timestamp_clamp json_parse
              (world (json_text "[{'date':1900000000,'price':'0.01234'}]")
                     (json_text "{'success':true,'price':'65000.50'}")
                     clock_2027) 0%nat
              [observation_object 1900000000 "0.01234"]
              (observation_object 1900000000 "0.01234") 1900000000 (str "0.01234")
              (ticker_object true "65000.50") (str "65000.50")
              ltac:(repeat split; discriminate) ltac:(vm_compute; reflexivity)
              eq_refl ltac:(repeat split) ltac:(split; vm_compute; congruence)
              eq_refl ltac:(vm_compute; reflexivity) ltac:(repeat split) eq_refl
              ltac:(vm_compute; congruence))
    as (timestamp & reads & E & _ & _ & L & _).
  exists timestamp, reads. split.
  - rewrite E. f_equal.
  - apply L. vm_compute. reflexivity.
Defined.

(** ** C9 *)

(** C9, as stated, fails: with a valid feed A, the rejection of the
    unsuccessful ticker comes after the clock check of feed A has run;
    the clock has been read once by then. *)
Lemma unsuccessful_ticker_after_clock_check :
  fst (getNewPrice json_parse
         (world (json_text "[{'date':1700000000,'price':'0.01234'}]")
                (json_text "{'success':false,'price':'100'}")
                clock_2027) 0%nat)
  = Throw (runtime_error "TradeOgre BTC response is invalid")
  /\ snd (getNewPrice json_parse
            (world (json_text "[{'date':1700000000,'price':'0.01234'}]")
                   (json_text "{'success':false,'price':'100'}")
                   clock_2027) 0%nat)
     <> 0%nat.
Proof. split; vm_compute; congruence. Qed.

(** C9, amended: when feed A passes all its checks and feed B parses to
    the object [{"success":false,"price":"100"}], [getNewPrice] throws the
    error of an invalid BTC response.  Feed A is handled first: by then
    the clock check of the time stamp has run and has read the clock once,
    or twice when the date lies in the future. *)
Theorem unsuccessful_ticker_rejection parse w k a eA date pa :
  delivered w ->
  parse (mwcResponse w) = sj_value (json_array a) ->
  array_at a (wrap_size_t (array_size a - 1)) = sj_value eA ->
  observation date pa eA ->
  date_in_range date ->
  positive_decimal (c_str pa) = true ->
  parse (btcResponse w) = sj_value (ticker_object false "100") ->
  exists reads,
    getNewPrice parse w k
    = (Throw (runtime_error "TradeOgre BTC response is invalid"), reads)
    /\ reads = (if date * ticks_per_second >? system_clock_now w k
                then S (S k) else S k).
Proof.
  intros Hd Hp Ha Ho Hr Hpa Hq.
  exists (snd (clamp w (date * ticks_per_second) k)). split.
  - apply (run_btc_unsuccessful parse w k a eA date pa Hd Hp Ha Ho Hr Hpa
             (ticker_object false "100") (str "100") Hq).
    repeat split.
  - unfold clamp. now destruct (date * ticks_per_second >? system_clock_now w k).
Qed.

Lemma unsuccessful_ticker_rejection_witness :
  exists reads,
    getNewPrice json_parse
      (world (json_text "[{'date':1900000000,'price':'0.01234'}]")
             (json_text "{'success':false,'price':'100'}")
             clock_2027) 0%nat
    = (Throw (runtime_error "TradeOgre BTC response is invalid"), reads)
    /\ reads = 2%nat.
Proof.
  apply (unsuccessful_ticker_rejection json_parse
           (world (json_text "[{'date':1900000000,'price':'0.01234'}]")
                  (json_text "{'success':false,'price':'100'}")
                  clock_2027) 0%nat
           [observation_object 1900000000 "0.01234"]
           (observation_object 1900000000 "0.01234") 1900000000 (str "0.01234")
           ltac:(repeat split; discriminate) ltac:(vm_compute; reflexivity)
           eq_refl ltac:(repeat split) ltac:(split; vm_compute; congruence)
           eq_refl ltac:(vm_compute; reflexivity)).
Defined.

(** ** C8 *)

Lemma array_at_app_l l r i :
  0 <= i < Z.of_nat (List.length l) -> array_at (l ++ r) i = array_at l i.
Proof.
  revert i. induction l as [|x t IH]; intros i H; cbn [List.length] in H; [lia|].
  cbn [app array_at]. destruct (Z.eqb_spec i 0); [reflexivity|].
  apply IH. lia.
Qed.

Lemma array_at_repeat x n i :
  0 <= i < Z.of_nat n -> array_at (repeat x n) i = sj_value x.
Proof.
  revert i. induction n as [|n IH]; intros i H; [lia|].
  cbn [repeat array_at]. destruct (Z.eqb_spec i 0); [reflexivity|].
  apply IH. lia.
Qed.

(** From 16777215 elements on, [size() - 1] is 16777214. *)
Lemma saturated_index a :
  16777215 <= Z.of_nat (List.length a) ->
  wrap_size_t (array_size a - 1) = 16777214.
Proof.
  intros H. unfold array_size, wrap_size_t.
  change (2 ^ 64) with 18446744073709551616.
  rewrite Z.min_r by lia. reflexivity.
Qed.

Lemma many_observations_at_size_minus_1 :
  array_at many_observations (wrap_size_t (array_size many_observations - 1))
  = sj_value (observation_object 1750000000 "9").
Proof.
  unfold many_observations.
  assert (N : Z.of_nat (Z.to_nat 16777215) = 16777215) by (apply Z2Nat.id; lia).
  revert N. generalize (Z.to_nat 16777215). intros n N.
  rewrite saturated_index by (rewrite length_app, repeat_length; lia).
  rewrite array_at_app_l by (rewrite repeat_length; lia).
  apply array_at_repeat. lia.
Qed.

(** C8 fails on the code: [size()] counts no further than 16777215, so on
    an array of 16777216 observations [json.at(size() - 1)] is the element
    of index 16777214, the last but one, and it is its date and price that
    are used, not those of the last element. *)
Theorem most_recent_of_16777216_observations :
  Z.of_nat (List.length many_observations) = 16777216
  /\ List.last many_observations json_null
     = observation_object 1700000000 "0.01234"
  /\ mwc_most_recent_price parse_many_observations world_many_observations 0%nat
     = (Return (observation_object 1750000000 "9"), 0%nat)
  /\ getNewPrice parse_many_observations world_many_observations 0%nat
     = (Return (1750000000 * ticks_per_second, str "585004.5"), 1%nat).
Proof.
  assert (Hp : parse_many_observations (mwcResponse world_many_observations)
               = sj_value (json_array many_observations)) by reflexivity.
  assert (Ho : observation 1750000000 (str "9") (observation_object 1750000000 "9"))
    by (repeat split).
  split; [|split; [|split]].
  - unfold many_observations. rewrite length_app, repeat_length.
    cbn [List.length]. rewrite Nat2Z.inj_add, Z2Nat.id by lia. reflexivity.
  - unfold many_observations. apply last_last.
  - exact (mwc_most_recent_price_observation _ _ _ _ _ _ _ Hp
             many_observations_at_size_minus_1 Ho).
  - assert (Hq : parse_many_observations (btcResponse world_many_observations)
                 = sj_value (ticker_object true "65000.50")).
    { change (json_parse (json_text "{'success':true,'price':'65000.50'}")
              = sj_value (ticker_object true "65000.50")).
      vm_compute. reflexivity. }
    rewrite (run_valid parse_many_observations world_many_observations 0%nat
               many_observations (observation_object 1750000000 "9")
               1750000000 (str "9")
               ltac:(repeat split; discriminate) Hp
               many_observations_at_size_minus_1 Ho
               ltac:(split; vm_compute; congruence) eq_refl
               (ticker_object true "65000.50") (str "65000.50")
               Hq ltac:(repeat split) eq_refl).
    vm_compute. reflexivity.
Qed.

(** ** C6 *)



Lemma price_product_positive a b :
  positive_decimal a = true -> positive_decimal b = true ->
  exists m e, mpfr_val (price_product a b) = mpfr_reg m e /\ 0 < m.
Proof.
  intros Ha Hb.
  destruct (price_value_positive a Ha) as (m1 & e1 & V1 & P1 & Q1).
  destruct (price_value_positive b Hb) as (m2 & e2 & V2 & P2 & Q2).
  destruct (mpfr_mul_positive (price_value a) (price_value a) (price_value b)
              m1 e1 m2 e2 ltac:(rewrite Q1; lia) V1 P1 V2 P2) as (m & e & E & P & _).
  exists m, e. split; assumption.
Qed.





(** * Further properties of [getNewPrice] *)

(** ** Requests and transport (lines 29-52) *)

(** X1: A request that cannot be created, a failed transfer or an empty
    response buffer ends the run with the error of that step, whatever the
    other buffer holds and whatever the parser would say, and the clock is
    not read. *)
Theorem transport_failure parse w k :
  (mwcRequest w = false ->
   getNewPrice parse w k
   = (Throw (runtime_error "Creating TradeOgre MWC request failed"), k))
  /\ (mwcRequest w = true -> btcRequest w = false ->
      getNewPrice parse w k
      = (Throw (runtime_error "Creating TradeOgre BTC request failed"), k))
  /\ (mwcRequest w = true -> btcRequest w = true ->
      performRequests w = false \/ mwcResponse w = [] \/ btcResponse w = [] ->
      getNewPrice parse w k
      = (Throw (runtime_error "Performing TradeOgre requests failed"), k)).
Proof.
  split; [|split].
  - intros H. unfold getNewPrice. apply bind_Throw.
    unfold perform_requests. apply bind_Throw. now rewrite H.
  - intros H1 H2. unfold getNewPrice. apply bind_Throw.
    unfold perform_requests. rewrite H1, H2. reflexivity.
  - intros H1 H2 H3. unfold getNewPrice. apply bind_Throw.
    unfold perform_requests. rewrite H1, H2.
    rewrite (bind_Return _ _ k tt k) by reflexivity.
    rewrite (bind_Return _ _ k tt k) by reflexivity.
    destruct H3 as [H3|[H3|H3]]; rewrite H3.
    + reflexivity.
    + simpl. now rewrite orb_true_r.
    + simpl. now rewrite !orb_true_r.
Qed.

Lemma transport_failure_witness :
  getNewPrice json_parse
    {| mwcRequest := true; btcRequest := true; performRequests := true;
       mwcResponse := json_text "[{'date':1700000000,'price':'0.01234'}]";
       btcResponse := [];
       system_clock_now := clock_2027 |} 0%nat
  = (Throw (runtime_error "Performing TradeOgre requests failed"), 0%nat).
Proof.
  destruct (transport_failure json_parse
              {| mwcRequest := true; btcRequest := true; performRequests := true;
                 mwcResponse := json_text "[{'date':1700000000,'price':'0.01234'}]";
                 btcResponse := [];
                 system_clock_now := clock_2027 |} 0%nat) as (_ & _ & H).
  apply H; try reflexivity. right. right. reflexivity.
Defined.

(** ** The shape of the MWC response (lines 54-72) *)

(** X2: A response that does not parse ends the run with the parser's error;
    a document that is not an array, or an empty array, with the
    invalid-response error.  The clock is not read. *)
Theorem mwc_response_shape parse w k :
  delivered w ->
  (forall e, parse (mwcResponse w) = sj_error e ->
             getNewPrice parse w k = (Throw (simdjson_error e), k))
  /\ (forall json, parse (mwcResponse w) = sj_value json ->
                   is_array json = false \/ json = json_array [] ->
                   getNewPrice parse w k
                   = (Throw (runtime_error "TradeOgre MWC response is invalid"), k)).
Proof.
  intros Hd. split.
  - intros e He. unfold getNewPrice.
    rewrite (bind_Return _ _ _ _ _ (perform_requests_delivered _ _ Hd)).
    apply bind_Throw. unfold mwc_most_recent_price. apply bind_Throw.
    now rewrite He.
  - intros json Hj Hs. unfold getNewPrice.
    rewrite (bind_Return _ _ _ _ _ (perform_requests_delivered _ _ Hd)).
    apply bind_Throw. unfold mwc_most_recent_price. rewrite Hj.
    rewrite (bind_Return _ _ k json k) by reflexivity.
    destruct Hs as [Hs| ->].
    + rewrite Hs. reflexivity.
    + reflexivity.
Qed.

Lemma mwc_response_shape_witness :
  getNewPrice json_parse
    (world (json_text "{'date':1700000000,'price':'0.01234'}")
           (json_text "{'success':true,'price':'65000.50'}") clock_2027) 0%nat
  = (Throw (runtime_error "TradeOgre MWC response is invalid"), 0%nat).
Proof.
  destruct (mwc_response_shape json_parse
              (world (json_text "{'date':1700000000,'price':'0.01234'}")
                     (json_text "{'success':true,'price':'65000.50'}") clock_2027)
              0%nat ltac:(repeat split; discriminate)) as [_ H].
  apply (H (observation_object 1700000000 "0.01234")).
  - vm_compute. reflexivity.
  - left. reflexivity.
Defined.

(** X3: The element at [size() - 1] must be an object with a [date] that
    casts to [int64_t] and a [price] that is a string; otherwise the run
    ends with the invalid-price error of feed A and the clock is not
    read.  A date written as a string, as a number with a fraction, or as
    an integer above [INT64_MAX] is such a case. *)
Theorem most_recent_price_shape parse w k a e :
  delivered w ->
  parse (mwcResponse w) = sj_value (json_array a) ->
  array_at a (wrap_size_t (array_size a - 1)) = sj_value e ->
  is_object e = false
  \/ is_int64 (at_key e "date") = false
  \/ is_string (at_key e "price") = false ->
  getNewPrice parse w k
  = (Throw (runtime_error "TradeOgre MWC most recent price is invalid"), k).
Proof.
  intros Hd Hp Ha Hs. unfold getNewPrice.
  rewrite (bind_Return _ _ _ _ _ (perform_requests_delivered _ _ Hd)).
  apply bind_Throw. unfold mwc_most_recent_price. rewrite Hp.
  rewrite (bind_Return _ _ k (json_array a) k) by reflexivity.
  cbn [is_array negb get_array value_of element_at].
  rewrite (bind_Return _ _ k false k).
  2:{ rewrite (bind_Return _ _ k a k) by reflexivity.
      unfold ret. now rewrite (array_size_positive a (array_at_not_nil _ _ _ Ha)). }
  rewrite (bind_Return _ _ k tt k) by reflexivity.
  rewrite (bind_Return _ _ k a k) by reflexivity.
  rewrite Ha. rewrite (bind_Return _ _ k e k) by reflexivity.
  apply bind_Throw.
  destruct Hs as [Hs|[Hs|Hs]]; rewrite Hs; simpl.
  - reflexivity.
  - now rewrite orb_true_r.
  - now rewrite !orb_true_r.
Qed.

Lemma most_recent_price_shape_witness :
  (getNewPrice json_parse
     (world (json_text "[{'date':'1700000000','price':'0.01234'}]")
            (json_text "{'success':true,'price':'65000.50'}") clock_2027) 0%nat
   = (Throw (runtime_error "TradeOgre MWC most recent price is invalid"), 0%nat))
  /\ (getNewPrice json_parse
        (world (json_text "[{'date':9223372036854775808,'price':'0.01234'}]")
               (json_text "{'success':true,'price':'65000.50'}") clock_2027) 0%nat
      = (Throw (runtime_error "TradeOgre MWC most recent price is invalid"), 0%nat)).
Proof.
  split.
  - apply (most_recent_price_shape json_parse
             (world (json_text "[{'date':'1700000000','price':'0.01234'}]")
                    (json_text "{'success':true,'price':'65000.50'}") clock_2027)
             0%nat
             [json_object [(str "date", json_string (str "1700000000"));
                           (str "price", json_string (str "0.01234"))]]
             (json_object [(str "date", json_string (str "1700000000"));
                           (str "price", json_string (str "0.01234"))])
             ltac:(repeat split; discriminate) ltac:(vm_compute; reflexivity) eq_refl).
    right. left. reflexivity.
  - apply (most_recent_price_shape json_parse
             (world (json_text "[{'date':9223372036854775808,'price':'0.01234'}]")
                    (json_text "{'success':true,'price':'65000.50'}") clock_2027)
             0%nat
             [json_object [(str "date", json_uint64 9223372036854775808);
                           (str "price", json_string (str "0.01234"))]]
             (json_object [(str "date", json_uint64 9223372036854775808);
                           (str "price", json_string (str "0.01234"))])
             ltac:(repeat split; discriminate) ltac:(vm_compute; reflexivity) eq_refl).
    right. left. reflexivity.
Defined.

(** ** The element at [size() - 1] (line 66) *)

Lemma array_at_last front last :
  array_at (front ++ [last]) (Z.of_nat (List.length front)) = sj_value last.
Proof.
  induction front as [|x t IH]; [reflexivity|].
  cbn [app List.length array_at].
  destruct (Z.eqb_spec (Z.of_nat (S (List.length t))) 0); [lia|].
  replace (Z.of_nat (S (List.length t)) - 1) with (Z.of_nat (List.length t)) by lia.
  exact IH.
Qed.

Lemma most_recent_index front last :
  Z.of_nat (List.length front) < 16777215 ->
  wrap_size_t (array_size (front ++ [last]) - 1) = Z.of_nat (List.length front).
Proof.
  intros H. unfold array_size, wrap_size_t. rewrite length_app. simpl List.length.
  change (2 ^ 64) with 18446744073709551616.
  rewrite Z.min_l by lia. rewrite Z.mod_small; lia.
Qed.

(** X16: When feed A parses to an array of at most 16777215 elements (the
    largest count [size()] reports) whose last element is an observation,
    the element whose date and price are used is that last one, whatever
    comes before it: [getNewPrice] does what it does on the array of the
    last element alone. *)
Theorem most_recent_is_last parse w k front last date price :
  delivered w ->
  parse (mwcResponse w) = sj_value (json_array (front ++ [last])) ->
  Z.of_nat (List.length front) < 16777215 ->
  observation date price last ->
  mwc_most_recent_price parse w k = (Return last, k)
  /\ (forall response,
        response <> [] ->
        parse response = sj_value (json_array [last]) ->
        getNewPrice parse w k = getNewPrice parse (with_mwcResponse w response) k).
Proof.
  intros Hd Hp Hl Ho.
  assert (Ha : array_at (front ++ [last])
                 (wrap_size_t (array_size (front ++ [last]) - 1)) = sj_value last).
  { rewrite most_recent_index by assumption. apply array_at_last. }
  pose proof (mwc_most_recent_price_observation parse w k _ last date price Hp Ha Ho)
    as E.
  split; [exact E|].
  intros response Hn Hp'.
  assert (Hd' : delivered (with_mwcResponse w response)).
  { destruct Hd as (H1 & H2 & H3 & H4 & H5). repeat split; assumption. }
  pose proof (mwc_most_recent_price_observation parse (with_mwcResponse w response)
                k [last] last date price Hp' eq_refl Ho) as E'.
  unfold getNewPrice.
  rewrite (bind_Return _ _ _ _ _ (perform_requests_delivered _ _ Hd)).
  rewrite (bind_Return _ _ _ _ _ (perform_requests_delivered _ _ Hd')).
  rewrite (bind_Return _ _ _ _ _ E), (bind_Return _ _ _ _ _ E').
  reflexivity.
Qed.

Lemma most_recent_is_last_witness :
  mwc_most_recent_price json_parse
    (world (json_text
              "[{'date':1800000000,'price':'9'},{'date':1700000000,'price':'0.01234'}]")
           (json_text "{'success':true,'price':'65000.50'}")
           clock_2027) 0%nat
  = (Return (observation_object 1700000000 "0.01234"), 0%nat).
Proof.
  apply (most_recent_is_last json_parse
           (world (json_text
                     "[{'date':1800000000,'price':'9'},{'date':1700000000,'price':'0.01234'}]")
                  (json_text "{'success':true,'price':'65000.50'}")
                  clock_2027) 0%nat
           [observation_object 1800000000 "9"]
           (observation_object 1700000000 "0.01234") 1700000000 (str "0.01234")
           ltac:(repeat split; discriminate) ltac:(vm_compute; reflexivity)
           ltac:(vm_compute; reflexivity) ltac:(repeat split)).
Defined.

(** ** The shape of the BTC response (lines 133-142) *)

(** X4: After a valid feed A, a BTC response that does not parse ends the run
    with the parser's error; a document that is not an object, or whose
    [success] is missing, not a boolean or false, or whose [price] is
    missing or not a string, with the invalid-response error of feed B. *)
Theorem btc_response_shape parse w k a eA date pa :
  delivered w ->
  parse (mwcResponse w) = sj_value (json_array a) ->
  array_at a (wrap_size_t (array_size a - 1)) = sj_value eA ->
  observation date pa eA ->
  date_in_range date ->
  positive_decimal (c_str pa) = true ->
  let k' := snd (clamp w (date * ticks_per_second) k) in
  (forall e, parse (btcResponse w) = sj_error e ->
             getNewPrice parse w k = (Throw (simdjson_error e), k'))
  /\ (forall json, parse (btcResponse w) = sj_value json ->
                   is_object json = false
                   \/ is_bool (at_key json "success") = false
                   \/ forward get_bool (at_key json "success") = sj_value false
                   \/ is_string (at_key json "price") = false ->
                   getNewPrice parse w k
                   = (Throw (runtime_error "TradeOgre BTC response is invalid"), k')).
Proof.
  intros Hd Hp Ha Ho Hr Hpa k'. subst k'. split.
  - intros e He. run_to_mwc_price Hd Hp Ha Ho Hr.
    rewrite (bind_Return _ _ _ _ _
               (read_price_positive pa _ (mpfr_init2 PRECISION) _ _ eq_refl Hpa)).
    apply bind_Throw. unfold btc_response. apply bind_Throw. now rewrite He.
  - intros json Hj Hs. run_to_mwc_price Hd Hp Ha Ho Hr.
    rewrite (bind_Return _ _ _ _ _
               (read_price_positive pa _ (mpfr_init2 PRECISION) _ _ eq_refl Hpa)).
    apply bind_Throw. unfold btc_response. rewrite Hj.
    set (k' := snd (clamp w (date * ticks_per_second) k)).
    rewrite (bind_Return _ _ k' json k') by reflexivity.
    destruct (is_object json) eqn:O; [|reflexivity].
    destruct (is_bool (at_key json "success")) eqn:B; [|reflexivity].
    destruct Hs as [Hs|[Hs|[Hs|Hs]]]; try discriminate.
    + rewrite Hs. reflexivity.
    + unfold is_bool in B. simpl negb.
      destruct (forward get_bool (at_key json "success")) as [[|]|] eqn:G;
        try discriminate; [|reflexivity].
      rewrite Hs. reflexivity.
Qed.

Lemma btc_response_shape_witness :
  getNewPrice json_parse
    (world (json_text "[{'date':1700000000,'price':'0.01234'}]")
           (json_text "{'success':'yes','price':'65000.50'}") clock_2027) 0%nat
  = (Throw (runtime_error "TradeOgre BTC response is invalid"), 1%nat).
Proof.
  destruct (btc_response_shape json_parse
              (world (json_text "[{'date':1700000000,'price':'0.01234'}]")
                     (json_text "{'success':'yes','price':'65000.50'}") clock_2027)
              0%nat
              [observation_object 1700000000 "0.01234"]
              (observation_object 1700000000 "0.01234") 1700000000 (str "0.01234")
              ltac:(repeat split; discriminate) ltac:(vm_compute; reflexivity)
              eq_refl ltac:(repeat split) ltac:(split; vm_compute; congruence)
              eq_refl) as [_ H].
  apply (H (json_object [(str "success", json_string (str "yes"));
                         (str "price", json_string (str "65000.50"))])).
  - vm_compute. reflexivity.
  - right. left. reflexivity.
Defined.

(** ** Prices of value zero (lines 116 and 166) *)

(** X5: A decimal string whose digits are all zero, such as ["0"] or
    ["0.000"], is accepted by [mpfr_set_str] and gives zero; the sign check
    then rejects it with the price error of its feed. *)
Theorem zero_price_rejection parse w k a eA date pa :
  delivered w ->
  parse (mwcResponse w) = sj_value (json_array a) ->
  array_at a (wrap_size_t (array_size a - 1)) = sj_value eA ->
  observation date pa eA ->
  date_in_range date ->
  let k' := snd (clamp w (date * ticks_per_second) k) in
  (decimal_string (c_str pa) = true ->
   existsb nonzero_digit (c_str pa) = false ->
   fst (mpfr_set_str (mpfr_init2 PRECISION) (c_str pa)) = 0
   /\ mpfr_sgn (snd (mpfr_set_str (mpfr_init2 PRECISION) (c_str pa))) = 0
   /\ getNewPrice parse w k
      = (Throw (runtime_error "TradeOgre MWC price is invalid"), k'))
  /\ (forall eB pb,
        positive_decimal (c_str pa) = true ->
        parse (btcResponse w) = sj_value eB ->
        ticker true pb eB ->
        decimal_string (c_str pb) = true ->
        existsb nonzero_digit (c_str pb) = false ->
        fst (mpfr_set_str (mpfr_init2 PRECISION) (c_str pb)) = 0
        /\ mpfr_sgn (snd (mpfr_set_str (mpfr_init2 PRECISION) (c_str pb))) = 0
        /\ getNewPrice parse w k
           = (Throw (runtime_error "TradeOgre BTC price is invalid"), k')).
Proof.
  intros Hd Hp Ha Ho Hr k'. subst k'. split.
  - intros Hs Hz.
    rewrite (mpfr_set_str_zero _ _ Hs Hz). split; [reflexivity|].
    split; [reflexivity|].
    apply (run_mwc_price_refused parse w k a eA date pa Hd Hp Ha Ho Hr).
    right. unfold positive_decimal. now rewrite Hz, andb_false_r.
  - intros eB pb Hpa Hq Ht Hs Hz.
    rewrite (mpfr_set_str_zero _ _ Hs Hz). split; [reflexivity|].
    split; [reflexivity|].
    apply (run_btc_price_refused parse w k a eA date pa Hd Hp Ha Ho Hr Hpa
             eB pb Hq Ht).
    right. unfold positive_decimal. now rewrite Hz, andb_false_r.
Qed.

Lemma zero_price_rejection_witness :
  getNewPrice json_parse
    (world (json_text "[{'date':1700000000,'price':'0.000'}]")
           (json_text "{'success':true,'price':'65000.50'}") clock_2027) 0%nat
  = (Throw (runtime_error "TradeOgre MWC price is invalid"), 1%nat).
Proof.
  destruct (zero_price_rejection json_parse
              (world (json_text "[{'date':1700000000,'price':'0.000'}]")
                     (json_text "{'success':true,'price':'65000.50'}") clock_2027)
              0%nat
              [observation_object 1700000000 "0.000"]
              (observation_object 1700000000 "0.000") 1700000000 (str "0.000")
              ltac:(repeat split; discriminate) ltac:(vm_compute; reflexivity)
              eq_refl ltac:(repeat split) ltac:(split; vm_compute; congruence))
    as [H _].
  apply H; reflexivity.
Defined.

(** ** Strings of digits and points that are no number (lines 114-120 and 164-170) *)

(** X15: A price, as the C string [get_c_str] gives for feed A or for
    feed B, that passes the character loop and is not a decimal string,
    such as the empty string or a lone point, is refused by
    [mpfr_set_str], and [getNewPrice] throws the price-invalid error of
    its feed. *)
Theorem malformed_price_rejection parse w k a eA date pa :
  delivered w ->
  parse (mwcResponse w) = sj_value (json_array a) ->
  array_at a (wrap_size_t (array_size a - 1)) = sj_value eA ->
  observation date pa eA ->
  date_in_range date ->
  let k' := snd (clamp w (date * ticks_per_second) k) in
  (forallb digit_or_point (c_str pa) = true ->
   decimal_string (c_str pa) = false ->
   check_price_chars (c_str pa) "TradeOgre MWC price is invalid" k' = (Return tt, k')
   /\ fst (mpfr_set_str (mpfr_init2 PRECISION) (c_str pa)) = -1
   /\ getNewPrice parse w k
      = (Throw (runtime_error "TradeOgre MWC price is invalid"), k'))
  /\ (forall eB pb,
        positive_decimal (c_str pa) = true ->
        parse (btcResponse w) = sj_value eB ->
        ticker true pb eB ->
        forallb digit_or_point (c_str pb) = true ->
        decimal_string (c_str pb) = false ->
        check_price_chars (c_str pb) "TradeOgre BTC price is invalid" k'
        = (Return tt, k')
        /\ fst (mpfr_set_str (mpfr_init2 PRECISION) (c_str pb)) = -1
        /\ getNewPrice parse w k
           = (Throw (runtime_error "TradeOgre BTC price is invalid"), k')).
Proof.
  intros Hd Hp Ha Ho Hr k'. subst k'. split.
  - intros Hc Hn.
    split; [now apply check_price_chars_ok|].
    split; [now apply mpfr_set_str_refuses|].
    apply (run_mwc_price_refused parse w k a eA date pa Hd Hp Ha Ho Hr).
    right. now apply not_decimal_not_positive.
  - intros eB pb Hpa Hq Ht Hc Hn.
    split; [now apply check_price_chars_ok|].
    split; [now apply mpfr_set_str_refuses|].
    apply (run_btc_price_refused parse w k a eA date pa Hd Hp Ha Ho Hr Hpa
             eB pb Hq Ht).
    right. now apply not_decimal_not_positive.
Qed.

Lemma malformed_price_rejection_witness :
  (getNewPrice json_parse
     (world (json_text "[{'date':1700000000,'price':''}]")
            (json_text "{'success':true,'price':'65000.50'}")
            clock_2027) 0%nat
   = (Throw (runtime_error "TradeOgre MWC price is invalid"), 1%nat))
  /\ (getNewPrice json_parse
        (world (json_text "[{'date':1700000000,'price':'0.01234'}]")
               (json_text "{'success':true,'price':'.'}")
               clock_2027) 0%nat
      = (Throw (runtime_error "TradeOgre BTC price is invalid"), 1%nat)).
Proof.
  split.
  - destruct (malformed_price_rejection json_parse
                (world (json_text "[{'date':1700000000,'price':''}]")
                       (json_text "{'success':true,'price':'65000.50'}")
                       clock_2027) 0%nat
                [observation_object 1700000000 ""]
                (observation_object 1700000000 "") 1700000000 (str "")
                ltac:(repeat split; discriminate) ltac:(vm_compute; reflexivity)
                eq_refl ltac:(repeat split) ltac:(split; vm_compute; congruence))
      as [H _].
    apply H; reflexivity.
  - destruct (malformed_price_rejection json_parse
                (world (json_text "[{'date':1700000000,'price':'0.01234'}]")
                       (json_text "{'success':true,'price':'.'}")
                       clock_2027) 0%nat
                [observation_object 1700000000 "0.01234"]
                (observation_object 1700000000 "0.01234") 1700000000 (str "0.01234")
                ltac:(repeat split; discriminate) ltac:(vm_compute; reflexivity)
                eq_refl ltac:(repeat split) ltac:(split; vm_compute; congruence))
      as [_ H].
    apply (H (ticker_object true ".") (str "."));
      try reflexivity; repeat split.
Defined.

(** ** Price strings with an embedded NUL (lines 102-130) *)

Lemma c_str_prefix good junk :
  forallb (fun c => negb (Ascii.eqb c NUL)) good = true ->
  c_str (good ++ NUL :: junk) = good.
Proof.
  induction good as [|c t IH]; intros H; [reflexivity|].
  simpl in H. apply andb_true_iff in H as [Hc Ht].
  cbn [app c_str]. apply negb_true_iff in Hc. rewrite Hc. now rewrite IH.
Qed.

Lemma positive_decimal_no_nul s :
  positive_decimal s = true ->
  forallb (fun c => negb (Ascii.eqb c NUL)) s = true.
Proof.
  intros H. unfold positive_decimal, decimal_string in H.
  repeat (apply andb_true_iff in H as [H _]).
  induction s as [|c t IH]; [reflexivity|].
  simpl in H. apply andb_true_iff in H as [Hc Ht].
  simpl. rewrite (IH Ht), andb_true_r.
  destruct (Ascii.eqb_spec c NUL) as [->|]; [discriminate Hc|reflexivity].
Qed.

(** X6: The price is read as a C string: when the string of feed A is a valid
    price followed by a NUL and anything else, the loop and [mpfr_set_str]
    see the valid price only, and the run goes on as for that price; the
    characters after the NUL are neither checked nor used. *)
Theorem price_read_up_to_nul parse w k a eA date good junk eB pb :
  delivered w ->
  parse (mwcResponse w) = sj_value (json_array a) ->
  array_at a (wrap_size_t (array_size a - 1)) = sj_value eA ->
  observation date (good ++ NUL :: junk) eA ->
  date_in_range date ->
  positive_decimal good = true ->
  parse (btcResponse w) = sj_value eB ->
  ticker true pb eB ->
  positive_decimal (c_str pb) = true ->
  strlen (rendered good (c_str pb)) <= INT_MAX ->
  getNewPrice parse w k
  = (Return (fst (clamp w (date * ticks_per_second) k),
             canonicalize (rendered good (c_str pb))),
     snd (clamp w (date * ticks_per_second) k)).
Proof.
  intros Hd Hp Ha Ho Hr Hg Hq Ht Hpb Hl.
  pose proof (c_str_prefix good junk (positive_decimal_no_nul _ Hg)) as E.
  assert (Hpa : positive_decimal (c_str (good ++ NUL :: junk)) = true)
    by now rewrite E.
  rewrite (run_valid parse w k a eA date _ Hd Hp Ha Ho Hr Hpa eB pb Hq Ht Hpb).
  rewrite E.
  destruct (Z.leb_spec (strlen (rendered good (c_str pb))) INT_MAX);
    [reflexivity|lia].
Qed.

Lemma price_read_up_to_nul_witness :
  getNewPrice json_parse
    (world (json_text "[{'date':1700000000,'price':'0.01234\u0000 or so'}]")
           (json_text "{'success':true,'price':'65000.50'}") clock_2027) 0%nat
  = (Return (1700000000 * ticks_per_second, str "802.10617"), 1%nat).
Proof.
  rewrite (price_read_up_to_nul json_parse
             (world (json_text "[{'date':1700000000,'price':'0.01234\u0000 or so'}]")
                    (json_text "{'success':true,'price':'65000.50'}") clock_2027)
             0%nat
             [json_object [(str "date", json_int64 1700000000);
                           (str "price",
                            json_string (str "0.01234" ++ NUL :: str " or so"))]]
             (json_object [(str "date", json_int64 1700000000);
                           (str "price",
                            json_string (str "0.01234" ++ NUL :: str " or so"))])
             1700000000 (str "0.01234") (str " or so")
             (ticker_object true "65000.50") (str "65000.50")
             ltac:(repeat split; discriminate) ltac:(vm_compute; reflexivity)
             eq_refl ltac:(repeat split) ltac:(split; vm_compute; congruence)
             eq_refl ltac:(vm_compute; reflexivity) ltac:(repeat split) eq_refl
             ltac:(vm_compute; congruence)).
  vm_compute. reflexivity.
Defined.

(** ** The range check and the conversion to ticks (lines 78-85) *)

(** X7: The range check throws exactly when the date, counted in ticks, does
    not fit the 64 bits of a time point: for an observation whose
    [date * 1000000000] fits, [time_point(seconds(date))] is that number
    of ticks, without wrap-around, and the time stamp is what lines 85-92
    make of it; for any other observation the date is refused. *)
Theorem date_range_is_overflow_guard w date price e k :
  observation date price e ->
  (INT64_MIN <= date * ticks_per_second <= INT64_MAX ->
   time_point_of_seconds date = date * ticks_per_second
   /\ mwc_timestamp w e k
      = (Return (fst (clamp w (time_point_of_seconds date) k)),
         snd (clamp w (time_point_of_seconds date) k)))
  /\ (~ INT64_MIN <= date * ticks_per_second <= INT64_MAX ->
      mwc_timestamp w e k
      = (Throw (runtime_error "TradeOgre date is invalid"), k)).
Proof.
  intros Ho.
  assert (R : date_in_range date
              <-> INT64_MIN <= date * ticks_per_second <= INT64_MAX).
  { unfold date_in_range. rewrite seconds_min, seconds_max.
    unfold INT64_MIN, INT64_MAX, ticks_per_second. lia. }
  split; intros H.
  - apply R in H. rewrite (time_point_of_seconds_exact date H).
    split; [reflexivity|]. now apply (mwc_timestamp_in_range w date price).
  - apply (mwc_timestamp_out_of_range w date price); [assumption|].
    intros H'. now apply H, R.
Qed.

Lemma date_range_is_overflow_guard_witness :
  time_point_of_seconds 9223372036 = 9223372036 * ticks_per_second
  /\ mwc_timestamp (world [] [] clock_2027)
       (observation_object 9223372036 "0.01234") 0%nat
     = (Return (1800000000 * ticks_per_second), 2%nat)
  /\ mwc_timestamp (world [] [] clock_2027)
       (observation_object 9223372037 "0.01234") 0%nat
     = (Throw (runtime_error "TradeOgre date is invalid"), 0%nat).
Proof.
  destruct (date_range_is_overflow_guard (world [] [] clock_2027)
              9223372036 (str "0.01234")
              (observation_object 9223372036 "0.01234") 0%nat
              ltac:(repeat split)) as [H _].
  destruct (H ltac:(split; vm_compute; congruence)) as [E1 E2].
  destruct (date_range_is_overflow_guard (world [] [] clock_2027)
              9223372037 (str "0.01234")
              (observation_object 9223372037 "0.01234") 0%nat
              ltac:(repeat split)) as [_ H'].
  split; [exact E1|]. split.
  - rewrite E2. vm_compute. reflexivity.
  - apply H'. vm_compute. intros [_ C]. now apply C.
Defined.

(** ** Multiplication and formatting (lines 180-204) *)



(** ** The canonicalisation block (lines 206-222) *)

Lemma strip_trailing_decompose c s :
  exists k, s = strip_trailing c s ++ repeat c k.
Proof.
  induction s as [|x t [k IH]].
  - exists 0%nat. reflexivity.
  - cbn [strip_trailing]. destruct (strip_trailing c t) as [|y t'] eqn:E.
    + destruct (Ascii.eqb_spec x c) as [->|N].
      * exists (S k). simpl in IH. rewrite IH at 1. reflexivity.
      * exists k. simpl in IH. now rewrite IH at 1.
    + exists k. rewrite IH at 1. reflexivity.
Qed.







Lemma back_is_split t c : back_is t c = true -> t = removelast t ++ [c].
Proof.
  intros H. destruct t as [|x t']; [discriminate H|].
  destruct (@exists_last _ (x :: t') ltac:(discriminate)) as (l & y & E).
  rewrite E in *. rewrite back_is_last in H. apply Ascii.eqb_eq in H. subst y.
  now rewrite removelast_last.
Qed.

(** X10: The block only cuts: its result is a prefix of the text, and what it
    cuts off is a run of zeros, with a point in front of them when the
    point was left dangling. *)
Theorem canonicalize_cuts_a_suffix s :
  strlen s < 2 ^ 64 ->
  exists k,
    s = canonicalize s ++ repeat "0"%char k
    \/ s = canonicalize s ++ "."%char :: repeat "0"%char k.
Proof.
  intros H.
  destruct (list_eq_dec ascii_dec s (str "0")) as [E|N].
  - exists 0%nat. left. subst s. reflexivity.
  - rewrite canonicalize_strip by assumption. cbv zeta.
    destruct (strip_trailing_decompose "0" s) as [k E].
    exists k. destruct (back_is (strip_trailing "0" s) ".") eqn:B.
    + right. apply back_is_split in B. unfold pop_back.
      rewrite E at 1. rewrite B at 1. now rewrite <- app_assoc.
    + left. exact E.
Qed.

Lemma canonicalize_cuts_a_suffix_witness :
  exists k,
    str "12.500" = canonicalize (str "12.500") ++ repeat "0"%char k
    \/ str "12.500" = canonicalize (str "12.500") ++ "."%char :: repeat "0"%char k.
Proof.
  apply (canonicalize_cuts_a_suffix (str "12.500")). vm_compute. reflexivity.
Defined.

Lemma canonicalize_steps result :
  canonicalize result
  = if list_eq_dec ascii_dec result (str "0") then result
    else if back_is (after_zero_removal result) "."
         then pop_back (after_zero_removal result)
         else after_zero_removal result.
Proof. reflexivity. Qed.

(** X11: [result.back()] is never called on an empty string, where it is
    undefined: the text formatted for two valid prices is not empty, what
    the removal of zeros leaves of it is not empty, and the price returned
    is not empty. *)
Theorem back_is_defined a b :
  positive_decimal a = true -> positive_decimal b = true ->
  strlen (rendered a b) < 2 ^ 64 ->
  back (rendered a b) <> None
  /\ (rendered a b <> str "0" -> back (after_zero_removal (rendered a b)) <> None)
  /\ canonicalize (rendered a b) <> [].
Proof.
  intros Ha Hb Hl.
  destruct (price_product_positive _ _ Ha Hb) as (m & e & V & Pm).
  assert (Hp : 0 <= total_precision a b)
    by (apply update_precision_nonneg, update_precision_nonneg; lia).
  destruct (formatted_text_back_defined (total_precision a b) _ m e Hp V Pm)
    as [N1 N2].
  fold (rendered a b) in N1, N2.
  assert (B : forall t, t <> [] -> back t <> None).
  { intros t Ht. unfold back.
    destruct (rev t) eqn:R; [|discriminate].
    apply (f_equal (@rev ascii)) in R. rewrite rev_involutive in R.
    simpl in R. contradiction. }
  assert (Z : rendered a b <> str "0" ->
              after_zero_removal (rendered a b) = strip_trailing "0" (rendered a b)).
  { intros _. unfold after_zero_removal.
    destruct (back_is (rendered a b) "0") eqn:E.
    - now apply substr0_find_last_not_of.
    - symmetry. now apply strip_trailing_keeps. }
  split; [now apply B|]. split.
  - intros N. rewrite (Z N). apply B. now apply N2.
  - rewrite canonicalize_steps.
    destruct (list_eq_dec ascii_dec (rendered a b) (str "0")) as [E0|N0].
    + rewrite E0. discriminate.
    + rewrite (Z N0). specialize (N2 N0).
      destruct (back_is (strip_trailing "0" (rendered a b)) ".") eqn:Bp;
        [|assumption].
      (* a dangling point: there is a digit in front of it *)
      destruct (format_F_shape (total_precision a b) _ m e Hp V Pm)
        as (ip & fp & F & Ni & Di & Df & L & _).
      fold (rendered a b) in F. rewrite F in *.
      destruct (Z.eqb_spec (total_precision a b) 0) as [P0|P0].
      * rewrite app_nil_r in *.
        rewrite (back_is_forallb isdigit) in Bp;
          [discriminate| |reflexivity].
        now apply strip_trailing_forallb.
      * rewrite strip_trailing_after in * by reflexivity.
        unfold pop_back.
        pose proof (strip_trailing_forallb isdigit "0" fp Df) as D'.
        destruct (strip_trailing "0" fp) as [|y t].
        -- rewrite removelast_last. assumption.
        -- rewrite back_is_app, back_is_cons in Bp by discriminate.
           rewrite (back_is_forallb isdigit) in Bp;
             [discriminate|assumption|reflexivity].
Qed.

Lemma back_is_defined_witness :
  canonicalize (rendered (str "0.5") (str "2")) <> [].
Proof.
  apply (back_is_defined (str "0.5") (str "2")); vm_compute; congruence.
Defined.

(** ** Reads of the clock *)

Lemma reads_no_clock_ret {A : Type} (a : A) : reads_no_clock (ret a).
Proof. intros k. reflexivity. Qed.

Lemma reads_no_clock_throw {A : Type} ex : reads_no_clock (@throw A ex).
Proof. intros k. reflexivity. Qed.

Lemma reads_no_clock_throw_if cond what : reads_no_clock (throw_if cond what).
Proof. intros k. now destruct cond. Qed.

Lemma reads_no_clock_value_of {A : Type} (r : simdjson_result A) :
  reads_no_clock (value_of r).
Proof. intros k. now destruct r. Qed.

Lemma reads_no_clock_bind {A B : Type} (c : M A) (f : A -> M B) :
  reads_no_clock c -> (forall a, reads_no_clock (f a)) ->
  reads_no_clock (bind c f).
Proof.
  intros Hc Hf k. unfold bind. specialize (Hc k).
  destruct (c k) as [[a|ex] k']; simpl in Hc; subst k'; [apply Hf|reflexivity].
Qed.

Lemma reads_no_clock_check_price_chars price what :
  reads_no_clock (check_price_chars price what).
Proof.
  induction price as [|c t IH]; intros k; [reflexivity|].
  simpl. destruct (negb (isdigit c) && negb (Ascii.eqb c ".")); [reflexivity|apply IH].
Qed.

Lemma reads_no_clock_read_price field what rop precision :
  reads_no_clock (read_price field what rop precision).
Proof.
  unfold read_price.
  apply reads_no_clock_bind; [apply reads_no_clock_value_of|intros price].
  apply reads_no_clock_bind; [apply reads_no_clock_check_price_chars|intros _].
  destruct (mpfr_set_str rop price) as [failed rop'].
  apply reads_no_clock_bind; [apply reads_no_clock_throw_if|intros _].
  apply reads_no_clock_ret.
Qed.

Lemma reads_no_clock_perform_requests w : reads_no_clock (perform_requests w).
Proof.
  unfold perform_requests.
  repeat (apply reads_no_clock_bind; [apply reads_no_clock_throw_if|intros _]).
  apply reads_no_clock_throw_if.
Qed.

Lemma reads_no_clock_mwc_most_recent_price parse w :
  reads_no_clock (mwc_most_recent_price parse w).
Proof.
  unfold mwc_most_recent_price.
  apply reads_no_clock_bind; [apply reads_no_clock_value_of|intros json].
  apply reads_no_clock_bind.
  { destruct (negb (is_array json)); [apply reads_no_clock_ret|].
    apply reads_no_clock_bind; [apply reads_no_clock_value_of|intros a].
    apply reads_no_clock_ret. }
  intros invalid.
  apply reads_no_clock_bind; [apply reads_no_clock_throw_if|intros _].
  apply reads_no_clock_bind; [apply reads_no_clock_value_of|intros a].
  apply reads_no_clock_bind; [apply reads_no_clock_value_of|intros e].
  apply reads_no_clock_bind; [apply reads_no_clock_throw_if|intros _].
  apply reads_no_clock_ret.
Qed.

Lemma reads_no_clock_btc_response parse w :
  reads_no_clock (btc_response parse w).
Proof.
  unfold btc_response.
  apply reads_no_clock_bind; [apply reads_no_clock_value_of|intros json].
  apply reads_no_clock_bind.
  { destruct (negb (is_object json)); [apply reads_no_clock_ret|].
    destruct (negb (is_bool (at_key json "success"))); [apply reads_no_clock_ret|].
    apply reads_no_clock_bind; [apply reads_no_clock_value_of|intros success].
    destruct (negb success); apply reads_no_clock_ret. }
  intros invalid.
  apply reads_no_clock_bind; [apply reads_no_clock_throw_if|intros _].
  apply reads_no_clock_ret.
Qed.

Lemma reads_no_clock_multiply_and_format a b precision :
  reads_no_clock (multiply_and_format a b precision).
Proof.
  unfold multiply_and_format.
  apply reads_no_clock_bind; [apply reads_no_clock_throw_if|intros _].
  apply reads_no_clock_bind; [apply reads_no_clock_throw_if|intros _].
  destruct (mpfr_sprintf _ _) as [written result].
  apply reads_no_clock_bind; [apply reads_no_clock_throw_if|intros _].
  apply reads_no_clock_ret.
Qed.

(** The date stage reads the clock once or twice when it returns, and not
    at all when it throws. *)
Lemma mwc_timestamp_reads w e k :
  match fst (mwc_timestamp w e k) with
  | Return _ => (k + 1 <= snd (mwc_timestamp w e k) <= k + 2)%nat
  | Throw _ => snd (mwc_timestamp w e k) = k
  end.
Proof.
  unfold mwc_timestamp.
  destruct (forward get_int64 (at_key e "date")) as [date|err];
    cbv [bind ret throw throw_if value_of now]; [|reflexivity].
  destruct ((date <? duration_cast_seconds time_point_min)
            || (date >? duration_cast_seconds time_point_max));
    [reflexivity|].
  destruct (time_point_of_seconds date >? system_clock_now w k); simpl; lia.
Qed.

(** X12: Whatever the responses are, [getNewPrice] reads the clock at most
    twice; a run that returns has read it at least once. *)
Theorem clock_reads parse w k :
  (k <= snd (getNewPrice parse w k) <= k + 2)%nat
  /\ (forall v, fst (getNewPrice parse w k) = Return v ->
                (k + 1 <= snd (getNewPrice parse w k))%nat).
Proof.
  destruct (getNewPrice parse w k) as [o n] eqn:E. cbn [fst snd].
  unfold getNewPrice in E. unfold bind at 1 in E.
  pose proof (reads_no_clock_perform_requests w k) as P.
  destruct (perform_requests w k) as [[[]|ex] k1]; simpl in P; subst k1;
    [|inversion E; subst; split; [lia|discriminate]].
  unfold bind at 1 in E.
  pose proof (reads_no_clock_mwc_most_recent_price parse w k) as Q.
  destruct (mwc_most_recent_price parse w k) as [[e|ex] k1]; simpl in Q; subst k1;
    [|inversion E; subst; split; [lia|discriminate]].
  unfold bind at 1 in E.
  pose proof (mwc_timestamp_reads w e k) as T.
  destruct (mwc_timestamp w e k) as [[timestamp|ex] k1]; simpl in T;
    [|inversion E; subst; split; [lia|discriminate]].
  match type of E with
  | ?c k1 = _ => assert (R : reads_no_clock c)
  end.
  { apply reads_no_clock_bind;
      [apply reads_no_clock_read_price|intros [mwcPrice precision]].
    apply reads_no_clock_bind; [apply reads_no_clock_btc_response|intros json].
    apply reads_no_clock_bind;
      [apply reads_no_clock_read_price|intros [btcPrice precision']].
    apply reads_no_clock_bind;
      [apply reads_no_clock_multiply_and_format|intros result].
    apply reads_no_clock_ret. }
  specialize (R k1). rewrite E in R. simpl in R. subst n.
  split; intros; lia.
Qed.

Lemma clock_reads_witness :
  (0 + 1
   <= snd (getNewPrice json_parse
             (world (json_text "[{'date':1900000000,'price':'0.01234'}]")
                    (json_text "{'success':true,'price':'65000.50'}") clock_2027)
             0%nat))%nat.
Proof.
  apply (clock_reads json_parse
           (world (json_text "[{'date':1900000000,'price':'0.01234'}]")
                  (json_text "{'success':true,'price':'65000.50'}") clock_2027)
           0%nat)
    with (v := (1800000000 * ticks_per_second, str "802.10617")).
  vm_compute. reflexivity.
Defined.

(** ** The product is exact (lines 94-204) *)




















